(** * The ANTLR4 grammar project reader: [internal/pom.go]

    A shallow embedding of the Go package [internal]: the grammar header
    scanner [ParseG4], the name-deriving methods of [Project] and [Grammar],
    and the descriptor reader [ParsePom], followed by the properties of the
    specification that concern them.

    Go strings are byte sequences: they are modelled by [string], whose
    characters ([ascii]) are the bytes.  A Go function that returns
    [(T, error)] with exactly one of the two set is modelled by [result T];
    a function that may panic by [outcome T]. *)

From Stdlib Require Import String Ascii List ZArith NArith Bool Lia.
Import ListNotations.
Open Scope string_scope.
Open Scope list_scope.

Notation "s +++ t" := (String.append s t)
  (at level 60, right associativity) : string_scope.

(** ** The Go library functions the package calls *)

(** [s[n:]] and [s[:n]] for [n <= len(s)]. *)
Fixpoint sliceFrom (n : nat) (s : string) : string :=
  match n, s with
  | S k, String _ r => sliceFrom k r
  | _, _ => s
  end.

Fixpoint sliceTo (n : nat) (s : string) : string :=
  match n, s with
  | S k, String c r => String c (sliceTo k r)
  | _, _ => ""
  end.

(** [strings.HasPrefix(s, prefix)]. *)
Definition HasPrefix (s pre : string) : bool := String.prefix pre s.

(** [strings.HasSuffix(s, suffix)]:
    [len(s) >= len(suffix) && s[len(s)-len(suffix):] == suffix]. *)
Definition HasSuffix (s suffix : string) : bool :=
  (String.length suffix <=? String.length s)%nat
  && (sliceFrom (String.length s - String.length suffix) s =? suffix).

(** [strings.TrimSuffix(s, suffix)]. *)
Definition TrimSuffix (s suffix : string) : string :=
  if HasSuffix s suffix
  then sliceTo (String.length s - String.length suffix) s
  else s.

(** [strings.Index(s, substr)]: the byte offset of the first occurrence of
    [substr] in [s], or [-1]. *)
Fixpoint Index (s substr : string) : Z :=
  if HasPrefix s substr then 0%Z
  else match s with
       | "" => (-1)%Z
       | String _ r =>
           let i := Index r substr in
           if (i <? 0)%Z then (-1)%Z else (i + 1)%Z
       end.

(** [strings.ToLower].  On a string of ASCII bytes the library maps the bytes
    ['A'..'Z'] to ['a'..'z'] and keeps the others.  On any other string it
    returns [strings.Map(unicode.ToLower, s)], which depends on the Unicode
    case tables: that path is the parameter [unicodeLower] below. *)
Definition lowerByte (c : ascii) : ascii :=
  let n := N_of_ascii c in
  if ((65 <=? n) && (n <=? 90))%N then ascii_of_N (n + 32) else c.

Fixpoint isASCII (s : string) : bool :=
  match s with
  | "" => true
  | String c r => (N_of_ascii c <? 128)%N && isASCII r
  end.

Fixpoint mapBytes (f : ascii -> ascii) (s : string) : string :=
  match s with
  | "" => ""
  | String c r => String (f c) (mapBytes f r)
  end.

(** White space, as [unicode.IsSpace] sees it through UTF-8.  The ASCII
    table of package [strings] holds tab, line feed, vertical tab, form feed,
    carriage return and space. *)
Definition asciiSpace (c : ascii) : bool :=
  let n := N_of_ascii c in
  ((9 <=? n) && (n <=? 13) || (n =? 32))%N.

(** [spaceWidth s] is the number of bytes of the white-space rune [s] starts
    with, and [0] when [s] does not start with one.  Besides the ASCII ones,
    the white-space runes are U+0085 and U+00A0 (bytes [C2 85], [C2 A0]),
    U+1680 ([E1 9A 80]), U+2000..U+200A ([E2 80 80..8A]), U+2028, U+2029,
    U+202F ([E2 80 A8], [E2 80 A9], [E2 80 AF]), U+205F ([E2 81 9F]) and
    U+3000 ([E3 80 80]).  Each of these starts with a byte that is no
    continuation byte, so the decoder of the library, which reads one byte at
    an ill-formed place, meets each of them at a rune boundary. *)
Definition spaceWidth (s : string) : nat :=
  match s with
  | "" => 0
  | String c r =>
      if asciiSpace c then 1
      else
        match r with
        | String d r' =>
            let c := N_of_ascii c in
            let d := N_of_ascii d in
            if ((c =? 0xC2) && ((d =? 0x85) || (d =? 0xA0)))%N then 2
            else
              match r' with
              | String e _ =>
                  let e := N_of_ascii e in
                  if ((c =? 0xE1) && (d =? 0x9A) && (e =? 0x80)
                      || (c =? 0xE2) && (d =? 0x80)
                         && ((0x80 <=? e) && (e <=? 0x8A)
                             || (e =? 0xA8) || (e =? 0xA9) || (e =? 0xAF))
                      || (c =? 0xE2) && (d =? 0x81) && (e =? 0x9F)
                      || (c =? 0xE3) && (d =? 0x80) && (e =? 0x80))%N
                  then 3 else 0
              | "" => 0
              end
        | "" => 0
        end
  end.

(** [strings.TrimLeftFunc(s, unicode.IsSpace)]; [skip] counts the bytes of
    the current white-space rune that are still to be dropped. *)
Fixpoint trimLeft (skip : nat) (s : string) : string :=
  match s with
  | "" => ""
  | String _ r =>
      match skip with
      | S k => trimLeft k r
      | O => match spaceWidth s with
             | O => s
             | S w => trimLeft w r
             end
      end
  end.

(** [s] consists of white-space runes only. *)
Fixpoint allSpace (skip : nat) (s : string) : bool :=
  match s with
  | "" => true
  | String _ r =>
      match skip with
      | S k => allSpace k r
      | O => match spaceWidth s with
             | O => false
             | S w => allSpace w r
             end
      end
  end.

(** [strings.TrimRightFunc(s, unicode.IsSpace)]. *)
Fixpoint trimRight (s : string) : string :=
  match s with
  | "" => ""
  | String c r => if allSpace 0 s then "" else String c (trimRight r)
  end.

(** [strings.TrimSpace(s)]. *)
Definition TrimSpace (s : string) : string := trimRight (trimLeft 0 s).

(** [strings.Fields(s)]: the maximal runs of bytes between white-space
    runes.  [fieldsFrom skip s] gives the field that is being read at the
    start of [s] (empty when a white-space rune comes first) and the fields
    after it. *)
Definition consField (w : string) (l : list string) : list string :=
  match w with
  | "" => l
  | _ => w :: l
  end.

Fixpoint fieldsFrom (skip : nat) (s : string) : string * list string :=
  match s with
  | "" => ("", [])
  | String c r =>
      match skip with
      | S k => fieldsFrom k r
      | O =>
          match spaceWidth s with
          | O => let (w, l) := fieldsFrom 0 r in (String c w, l)
          | S k => let (w, l) := fieldsFrom k r in ("", consField w l)
          end
      end
  end.

Definition Fields (s : string) : list string :=
  let (w, l) := fieldsFrom 0 s in consField w l.

(** [strings.Count(s, substr)] and [strings.Replace(s, old, new, n)] for a
    non-empty [substr] and [old] (the package passes the constants ["/"] and
    [".g4"]): occurrences are found from the left and do not overlap; after
    one is found, [skip] counts its bytes still to be passed.  A negative [n]
    puts no limit on the number of replacements.  The empty [substr] and
    [old], which the library treats rune by rune, are outside this model
    ([Replace] then keeps [s]). *)
Fixpoint countFrom (substr : string) (skip : nat) (s : string) : nat :=
  match s with
  | "" => 0
  | String _ r =>
      match skip with
      | S k => countFrom substr k r
      | O => if HasPrefix s substr
             then S (countFrom substr (String.length substr - 1) r)
             else countFrom substr 0 r
      end
  end.

Definition Count (s substr : string) : nat := countFrom substr 0 s.

Fixpoint replaceFrom (old new : string) (n : Z) (skip : nat) (s : string)
  : string :=
  match s with
  | "" => ""
  | String c r =>
      match skip with
      | S k => replaceFrom old new n k r
      | O =>
          if (n =? 0)%Z then s
          else if HasPrefix s old
               then new +++ replaceFrom old new (n - 1) (String.length old - 1) r
               else String c (replaceFrom old new n 0 r)
      end
  end.

Definition Replace (s old new : string) (n : Z) : string :=
  if (old =? new) || (n =? 0)%Z || (old =? "") then s
  else replaceFrom old new n 0 s.

(** [strings.Repeat(s, count)]. *)
Fixpoint Repeat (s : string) (count : nat) : string :=
  match count with
  | O => ""
  | S k => s +++ Repeat s k
  end.

(** ** Errors, results and panics *)

(** An error value made by the Go library ([os], [bufio], [encoding/xml],
    [path/filepath], [io]); the package only passes these on. *)
Inductive liberror : Type :=
| LibError (description : string).

Inductive error : Type :=
| FromLibrary (e : liberror)
    (* an error of a library call, returned as it is *)
| ErrGrammarName (line : string)
    (* fmt.Errorf("failed to parse grammar name: %q", line) *)
| ErrNoFields.
    (* errors.New("failed to find fields of interest in grammar") *)

Inductive result (A : Type) : Type :=
| Ok (a : A)
| Err (e : error).
Arguments Ok {A} a.
Arguments Err {A} e.

(** The value a [panic] of the package carries: each is the string that
    [fmt.Sprintf] makes from the format and the argument named here. *)
Inductive panicValue : Type :=
| NoParser (fileName : string)         (* "%q does not contain a parser" *)
| NoLexer (fileName : string)          (* "%q does not contain a lexer" *)
| UnknownGrammarType (type : string).  (* "unknown grammar type %q" *)

Inductive outcome (A : Type) : Type :=
| Returns (a : A)
| Panics (v : panicValue).
Arguments Returns {A} a.
Arguments Panics {A} v.

(** The call comes back to its caller with a value. *)
Definition returnsToCaller {A : Type} (o : outcome A) : Prop :=
  exists a, o = Returns a.

(** ** The data model *)

Record Grammar : Type := {
  Name : string;
  Filename : string;
  Type_ : string  (* one of PARSER, LEXER or COMBINED *)
}.

Record Project : Type := {
  FileName : string;
  LongName : string;
  Includes : list string;
  Grammars : list Grammar;
  EntryPoint : string;
  ExampleRoot : string;
  Examples : list string;
  CaseInsensitiveType : string;
  FoundAntlr4MavenPlugin : bool
}.

Definition setLongName (p : Project) (v : string) : Project :=
  {| FileName := FileName p; LongName := v; Includes := Includes p;
     Grammars := Grammars p; EntryPoint := EntryPoint p;
     ExampleRoot := ExampleRoot p; Examples := Examples p;
     CaseInsensitiveType := CaseInsensitiveType p;
     FoundAntlr4MavenPlugin := FoundAntlr4MavenPlugin p |}.

Definition setIncludes (p : Project) (v : list string) : Project :=
  {| FileName := FileName p; LongName := LongName p; Includes := v;
     Grammars := Grammars p; EntryPoint := EntryPoint p;
     ExampleRoot := ExampleRoot p; Examples := Examples p;
     CaseInsensitiveType := CaseInsensitiveType p;
     FoundAntlr4MavenPlugin := FoundAntlr4MavenPlugin p |}.

Definition setGrammars (p : Project) (v : list Grammar) : Project :=
  {| FileName := FileName p; LongName := LongName p; Includes := Includes p;
     Grammars := v; EntryPoint := EntryPoint p;
     ExampleRoot := ExampleRoot p; Examples := Examples p;
     CaseInsensitiveType := CaseInsensitiveType p;
     FoundAntlr4MavenPlugin := FoundAntlr4MavenPlugin p |}.

Definition setEntryPoint (p : Project) (v : string) : Project :=
  {| FileName := FileName p; LongName := LongName p; Includes := Includes p;
     Grammars := Grammars p; EntryPoint := v;
     ExampleRoot := ExampleRoot p; Examples := Examples p;
     CaseInsensitiveType := CaseInsensitiveType p;
     FoundAntlr4MavenPlugin := FoundAntlr4MavenPlugin p |}.

Definition setExamples (p : Project) (examples : list string) (root : string)
  : Project :=
  {| FileName := FileName p; LongName := LongName p; Includes := Includes p;
     Grammars := Grammars p; EntryPoint := EntryPoint p;
     ExampleRoot := root; Examples := examples;
     CaseInsensitiveType := CaseInsensitiveType p;
     FoundAntlr4MavenPlugin := FoundAntlr4MavenPlugin p |}.

Definition setCaseInsensitiveType (p : Project) (v : string) : Project :=
  {| FileName := FileName p; LongName := LongName p; Includes := Includes p;
     Grammars := Grammars p; EntryPoint := EntryPoint p;
     ExampleRoot := ExampleRoot p; Examples := Examples p;
     CaseInsensitiveType := v;
     FoundAntlr4MavenPlugin := FoundAntlr4MavenPlugin p |}.

Definition setFoundAntlr4MavenPlugin (p : Project) (v : bool) : Project :=
  {| FileName := FileName p; LongName := LongName p; Includes := Includes p;
     Grammars := Grammars p; EntryPoint := EntryPoint p;
     ExampleRoot := ExampleRoot p; Examples := Examples p;
     CaseInsensitiveType := CaseInsensitiveType p;
     FoundAntlr4MavenPlugin := v |}.

(** [p := &Project{FileName: path}]: every other field has its zero value. *)
Definition newProject (path : string) : Project :=
  {| FileName := path; LongName := ""; Includes := []; Grammars := [];
     EntryPoint := ""; ExampleRoot := ""; Examples := [];
     CaseInsensitiveType := ""; FoundAntlr4MavenPlugin := false |}.

(** ** The operating system and the XML decoder *)

Inductive libresult (A : Type) : Type :=
| LibOk (a : A)
| LibErr (e : liberror).
Arguments LibOk {A} a.
Arguments LibErr {A} e.

(** What an [xml.Decoder] over a file answers, as the tree of its answers.
    In the state [TokenNil err], [decoder.Token()] returns [(nil, err)]: the
    input has ended ([io.EOF]) or is ill-formed.  In [TokenOther next] it
    returns a token that is no start element (an end element, character
    data, a comment, a processing instruction, a directive) and the decoder
    goes to [next].  In [TokenStart local body afterBody inside] it returns
    an [xml.StartElement] whose [Name.Local] is [local]; if the caller then
    calls [decoder.DecodeElement(&s, &se)] on a string [s], the call fails
    with the error of [body], or stores the text of [body] in [s] and leaves
    the decoder in [afterBody], past the end of the element; if the caller
    asks for the next token instead, the decoder goes to [inside]. *)
Inductive Decoder : Type :=
| TokenNil (err : liberror)
| TokenOther (next : Decoder)
| TokenStart (local : string) (body : libresult string)
    (afterBody : Decoder) (inside : Decoder).

(** An open file, as its two readers see it: a [bufio.Scanner] yields
    [lines], one per successful [Scan()], after which [scanner.Err()] is
    [scanErr]; an [xml.Decoder] answers as [tokens]. *)
Record File : Type := {
  lines : list string;
  scanErr : option liberror;
  tokens : Decoder
}.

(** The error of [os.Stat(path)]: the errors [os.IsNotExist] recognises (no
    such file or directory), the error of a path with a component that is no
    directory, and any other (permission denied and the like). *)
Inductive statError : Type :=
| ErrNotExist
| ErrNotDir
| ErrStat (e : liberror).

(** [os.IsNotExist(err)], [None] being the [nil] error. *)
Definition os_IsNotExist (err : option statError) : bool :=
  match err with
  | Some ErrNotExist => true
  | _ => false
  end.

Record OS : Type := {
  (* the err of: _, err := os.Stat(path) *)
  Stat : string -> option statError;
  (* os.Open(path) *)
  Open : string -> libresult File;
  (* filepath.Glob(pattern) *)
  Glob : string -> libresult (list string)
}.

(** The lines [log.Printf] writes. *)
Inductive logEntry : Type :=
| LogMissingGrammar (file path : string)
    (* "missing grammar %q referenced in %q" *)
| LogFailedToParse (file : string) (err : error).
    (* "failed to parse grammar %q: %s" *)

(** ** The grammar header scanner: [ParseG4] *)

(** The [t] of the loop body: [""] when the line starts with none of the
    three keywords. *)
Definition headerType (line : string) : string :=
  if HasPrefix line "grammar" then "COMBINED"
  else if HasPrefix line "lexer" then "LEXER"
  else if HasPrefix line "parser" then "PARSER"
  else "".

(** The line cut at its first [";"]. *)
Definition cutAtSemicolon (line : string) : string :=
  let semi := Index line ";" in
  if (0 <=? semi)%Z then sliceTo (Z.to_nat semi) line else line.

(** The body of [if t != ""]. *)
Definition parseHeader (path line t : string) : result Grammar :=
  let line := cutAtSemicolon line in
  let parts := Fields line in
  if (List.length parts <? 2)%nat then Err (ErrGrammarName line)
  else Ok {| Name := nth (List.length parts - 1) parts "";
             Filename := path;
             Type_ := t |}.

(** The loop [for scanner.Scan()]: [None] when it ends without a [return]. *)
Fixpoint scanLines (path : string) (ls : list string)
  : option (result Grammar) :=
  match ls with
  | [] => None
  | text :: rest =>
      let line := TrimSpace text in
      let t := headerType line in
      if negb (t =? "") then Some (parseHeader path line t)
      else scanLines path rest
  end.

Definition ParseG4 (os : OS) (path : string) : result Grammar :=
  match Open os path with
  | LibErr err => Err (FromLibrary err)
  | LibOk f =>
      match scanLines path (lines f) with
      | Some r => r
      | None =>
          match scanErr f with
          | Some err => Err (FromLibrary err)
          | None => Err ErrNoFields
          end
      end
  end.

Fixpoint contains (haystack : list string) (needle : string) : bool :=
  match haystack with
  | [] => false
  | straw :: rest => if straw =? needle then true else contains rest needle
  end.

Definition fileExists (os : OS) (path : string) : bool :=
  negb (os_IsNotExist (Stat os path)).

(** ** The name deriver: the methods of [Project] and [Grammar] *)

Definition findGrammarOfType (p : Project) (t : string) : option Grammar :=
  find (fun g => Type_ g =? t) (Grammars p).

Definition ListenerName (p : Project) : outcome string :=
  match findGrammarOfType p "PARSER" with
  | Some g => Returns (Name g +++ "Listener")
  | None =>
      match findGrammarOfType p "COMBINED" with
      | Some g => Returns (Name g +++ "Listener")
      | None => Panics (NoParser (FileName p))
      end
  end.

Definition grammarParserName (p : Project) : outcome string :=
  match findGrammarOfType p "PARSER" with
  | Some g => Returns (TrimSuffix (Name g) "Parser")
  | None =>
      match findGrammarOfType p "COMBINED" with
      | Some g => Returns (Name g)
      | None => Panics (NoParser (FileName p))
      end
  end.

Definition grammarLexerName (p : Project) : outcome string :=
  match findGrammarOfType p "LEXER" with
  | Some g => Returns (TrimSuffix (Name g) "Lexer")
  | None =>
      match findGrammarOfType p "COMBINED" with
      | Some g => Returns (Name g)
      | None => Panics (NoLexer (FileName p))
      end
  end.

Definition ParserName (p : Project) : outcome string :=
  match grammarParserName p with
  | Returns s => Returns (s +++ "Parser")
  | Panics v => Panics v
  end.

Definition LexerName (p : Project) : outcome string :=
  match grammarLexerName p with
  | Returns s => Returns (s +++ "Lexer")
  | Panics v => Panics v
  end.

Section Package.

(** The parts of the Go library that are taken as they are: the lower-casing
    of a string that is not ASCII (see [lowerByte] above), and the lexical
    path functions [filepath.Dir] and [filepath.Join]. *)
Variable unicodeLower : string -> string.
Variable filepath_Dir : string -> string.
Variable filepath_Join : list string -> string.

Definition ToLower (s : string) : string :=
  if isASCII s then mapBytes lowerByte s else unicodeLower s.

Definition Grammar_GeneratedFilenames (g : Grammar) : outcome (list string) :=
  if Type_ g =? "LEXER" then
    let name := ToLower (TrimSuffix (Name g) "Lexer") in
    Returns [name +++ "_lexer.go"]
  else if Type_ g =? "PARSER" then
    let name := ToLower (Name g) in
    let files := [name +++ "_base_listener.go"; name +++ "_listener.go"] in
    let name := ToLower (TrimSuffix (Name g) "Parser") in
    Returns (files ++ [name +++ "_parser.go"])
  else if Type_ g =? "COMBINED" then
    let name := ToLower (Name g) in
    let files := [name +++ "_base_listener.go"; name +++ "_listener.go"] in
    Returns (files ++ [name +++ "_parser.go"; name +++ "_lexer.go"])
  else Panics (UnknownGrammarType (Type_ g)).

(** The loop of [Project.GeneratedFilenames], [files] being what has been
    appended so far. *)
Fixpoint appendGenerated (gs : list Grammar) (files : list string)
  : outcome (list string) :=
  match gs with
  | [] => Returns files
  | g :: rest =>
      match Grammar_GeneratedFilenames g with
      | Returns fs => appendGenerated rest (files ++ fs)
      | Panics v => Panics v
      end
  end.

Definition Project_GeneratedFilenames (p : Project) : outcome (list string) :=
  appendGenerated (Grammars p) [].

(** ** The descriptor reader: [ParsePom] *)

(** The file a [grammars] or [include] element stands for: the GoTarget
    variant of [file] when [fileExists] says it is there. *)
Definition upgradeFile (os : OS) (file : string) : string :=
  let betterfile := Replace file ".g4" ".GoTarget.g4" (-1) in
  if fileExists os betterfile then betterfile else file.

(** The rest of the case ["grammars", "include"], from the upgrade on; the
    [continue] of a duplicate leaves the project and the log as they are. *)
Definition includeGrammar (os : OS) (path : string) (p : Project)
  (log : list logEntry) (file : string) : Project * list logEntry :=
  let file := upgradeFile os file in
  if negb (fileExists os file) then
    (p, log ++ [LogMissingGrammar file path])
  else if contains (Includes p) file then (p, log)
  else
    let p := setIncludes p (Includes p ++ [file]) in
    match ParseG4 os file with
    | Err err => (p, log ++ [LogFailedToParse file err])
    | Ok g => (setGrammars p (Grammars p ++ [g]), log)
    end.

(** [case "grammars", "include":] *)
Definition isInclude (local : string) : bool :=
  (local =? "grammars") || (local =? "include").

(** The element names that have a case in the [switch]. *)
Definition recognized (local : string) : bool :=
  (local =? "artifactId") || (local =? "grammars") || (local =? "include")
  || (local =? "grammarName") || (local =? "entryPoint")
  || (local =? "exampleFiles") || (local =? "caseInsensitiveType").

(** What the case of [local] does once [DecodeElement] has stored the text
    of the element in its variable. *)
Definition element (os : OS) (path dir local text : string) (p : Project)
  (log : list logEntry) : result Project * list logEntry :=
  if local =? "artifactId" then
    (Ok (if text =? "antlr4-maven-plugin"
         then setFoundAntlr4MavenPlugin p true else p), log)
  else if isInclude local then
    let (p', log') :=
      includeGrammar os path p log (filepath_Join [dir; text]) in
    (Ok p', log')
  else if local =? "grammarName" then (Ok (setLongName p text), log)
  else if local =? "entryPoint" then (Ok (setEntryPoint p text), log)
  else if local =? "exampleFiles" then
    match Glob os (filepath_Join [dir; text; "*"]) with
    | LibErr err => (Err (FromLibrary err), log)
    | LibOk examples =>
        (Ok (setExamples p examples (Repeat "../" (Count dir "/"))), log)
    end
  else if local =? "caseInsensitiveType" then
    (Ok (setCaseInsensitiveType p text), log)
  else (Ok p, log).

(** The loop [for { t, _ := decoder.Token() ... }].  Every case of the
    [switch] starts with the same [DecodeElement] and the same return of its
    error; a token that is no start element, and a start element without a
    case, lead to the next [Token()]. *)
Fixpoint parseTokens (os : OS) (path dir : string) (d : Decoder)
  (p : Project) (log : list logEntry) : result Project * list logEntry :=
  match d with
  | TokenNil _ => (Ok p, log)
  | TokenOther next => parseTokens os path dir next p log
  | TokenStart local body afterBody inside =>
      if recognized local then
        match body with
        | LibErr err => (Err (FromLibrary err), log)
        | LibOk text =>
            match element os path dir local text p log with
            | (Ok p', log') => parseTokens os path dir afterBody p' log'
            | (Err err, log') => (Err err, log')
            end
        end
      else parseTokens os path dir inside p log
  end.

(** [ParsePom(path)], with the lines it logs. *)
Definition ParsePom (os : OS) (path : string)
  : result Project * list logEntry :=
  let p := newProject path in
  match Open os path with
  | LibErr err => (Err (FromLibrary err), [])
  | LibOk file =>
      let dir := filepath_Dir path in
      parseTokens os path dir (tokens file) p []
  end.

(** ** The specification's readings, for comparison with the code *)

(** The variant the specification describes: only the first occurrence of
    the extension is replaced. *)
Definition upgradeFirstOccurrence (os : OS) (file : string) : string :=
  let betterfile := Replace file ".g4" ".GoTarget.g4" 1 in
  if fileExists os betterfile then betterfile else file.

(** The files the [grammars] and [include] elements of a descriptor stand
    for, in the order in which the reader decodes them. *)
Fixpoint referenced (os : OS) (dir : string) (d : Decoder) : list string :=
  match d with
  | TokenNil _ => []
  | TokenOther next => referenced os dir next
  | TokenStart local body afterBody inside =>
      if recognized local then
        match body with
        | LibErr _ => []
        | LibOk text =>
            (if isInclude local
             then [upgradeFile os (filepath_Join [dir; text])] else [])
            ++ referenced os dir afterBody
        end
      else referenced os dir inside
  end.

(** A sequence without its repetitions: each entry stays where it first
    occurred.  [seen] holds the entries met so far. *)
Definition addOnce (seen : list string) (x : string) : list string :=
  if contains seen x then seen else seen ++ [x].

Definition firstOccurrences (l : list string) : list string :=
  fold_left addOnce l [].

(** The grammars of the files the header scanner classifies. *)
Definition classified (os : OS) (files : list string) : list Grammar :=
  flat_map (fun f => match ParseG4 os f with
                     | Ok g => [g]
                     | Err _ => []
                     end) files.

(** Every element body the reader decodes on its way through the descriptor
    decodes without an error. *)
Fixpoint bodiesDecode (d : Decoder) : bool :=
  match d with
  | TokenNil _ => true
  | TokenOther next => bodiesDecode next
  | TokenStart local body afterBody inside =>
      if recognized local then
        match body with
        | LibErr _ => false
        | LibOk _ => bodiesDecode afterBody
        end
      else bodiesDecode inside
  end.


(** Two results of the reader that agree on the error or, for two
    projects, on every field but [Includes] and [Grammars]. *)
Definition sameFieldsButGrammars (p p' : Project) : Prop :=
  FileName p = FileName p' /\ LongName p = LongName p'
  /\ EntryPoint p = EntryPoint p' /\ ExampleRoot p = ExampleRoot p'
  /\ Examples p = Examples p'
  /\ CaseInsensitiveType p = CaseInsensitiveType p'
  /\ FoundAntlr4MavenPlugin p = FoundAntlr4MavenPlugin p'.

Definition sameButGrammars (r r' : result Project) : Prop :=
  match r, r' with
  | Ok p, Ok p' => sameFieldsButGrammars p p'
  | Err e, Err e' => e = e'
  | _, _ => False
  end.

(** [os.Stat] finds no file at the path: the file or a directory on the way
    to it is missing, or a component on the way is no directory. *)
Definition namesNoFile (os : OS) (path : string) : bool :=
  match Stat os path with
  | Some ErrNotExist | Some ErrNotDir => true
  | _ => false
  end.

(** The reading of the specification: a path that names no file on disk
    is neither in [Includes] nor the file of a grammar. *)
Definition absentFilesAreDropped (os : OS) (p : Project) : Prop :=
  forall f, namesNoFile os f = true ->
            ~ In f (Includes p)
            /\ forall g, In g (Grammars p) -> Filename g <> f.

(** No grammar of the project is a PARSER or a COMBINED grammar. *)
Definition noParserGrammar (p : Project) : Prop :=
  forall g, In g (Grammars p) ->
            Type_ g <> "PARSER" /\ Type_ g <> "COMBINED".

(** ** Sample projects, descriptors and files *)

Definition grammarNamed (name type : string) : Grammar :=
  {| Name := name; Filename := name +++ ".g4"; Type_ := type |}.

Definition projectOf (gs : list Grammar) : Project :=
  setGrammars (newProject "pom.xml") gs.

Definition fooCombined : Project :=
  projectOf [grammarNamed "Foo" "COMBINED"].

Definition fooSplit : Project :=
  projectOf [grammarNamed "FooParser" "PARSER"; grammarNamed "FooLexer" "LEXER"].

Definition fooLexerOnly : Project :=
  projectOf [grammarNamed "FooLexer" "LEXER"].

(** Stand-ins for the lexical path functions, good for the sample paths:
    the text before the last ["/"], and the elements joined by ["/"]. *)
Fixpoint beforeLastSlash (s : string) : option string :=
  match s with
  | "" => None
  | String c r =>
      match beforeLastSlash r with
      | Some d => Some (String c d)
      | None => if (c =? "/")%char then Some "" else None
      end
  end.

Definition sampleDir (path : string) : string :=
  match beforeLastSlash path with
  | Some d => d
  | None => "."
  end.

Definition sampleJoin (elems : list string) : string := String.concat "/" elems.

Definition sampleLower (s : string) : string := s.

Definition eof : liberror := LibError "EOF".

(** [<name>text</name>], followed by [next]. *)
Definition textElement (name text : string) (next : Decoder) : Decoder :=
  TokenStart name (LibOk text) next (TokenOther (TokenOther next)).

(** A descriptor that names [Foo.g4] twice, then a file that is missing and
    a file without a header, and breaks off inside [<project>]. *)
Definition sampleTokens : Decoder :=
  TokenStart "project" (LibErr (LibError "XML syntax error: unexpected EOF"))
    (TokenNil eof)
    (textElement "artifactId" "antlr4-maven-plugin"
    (textElement "include" "Foo.g4"
    (textElement "include" "Foo.g4"
    (textElement "include" "Missing.g4"
    (textElement "include" "Notes.g4"
    (textElement "grammarName" "Foo"
    (textElement "entryPoint" "prog"
    (TokenNil (LibError "XML syntax error: unexpected EOF"))))))))).

Definition textFile (ls : list string) : File :=
  {| lines := ls; scanErr := None; tokens := TokenNil eof |}.

Definition sampleDescriptor : File :=
  {| lines := []; scanErr := None; tokens := sampleTokens |}.

Definition sampleOpen (path : string) : libresult File :=
  if path =? "g/pom.xml" then LibOk sampleDescriptor
  else if path =? "g/Foo.g4" then
    LibOk (textFile ["// the grammar"; "grammar Foo;"; "prog : ID ;"])
  else if path =? "g/Foo.GoTarget.g4" then
    LibOk (textFile ["  grammar Foo ; // for Go"; "prog : ID ;"])
  else if path =? "g/FooLexer.g4" then
    LibOk (textFile ["/* the tokens */"; "lexer grammar FooLexer;";
                     "ID : [a-z]+ ;"])
  else if path =? "g/Notes.g4" then
    LibOk (textFile ["// nothing here yet"])
  else if path =? "g/Broken.g4" then
    LibOk (textFile ["grammar ;"])
  else LibErr (LibError "no such file or directory").

Definition sampleOS : OS :=
  {| Stat := fun path =>
       match sampleOpen path with
       | LibOk _ => None
       | LibErr _ => Some ErrNotExist
       end;
     Open := sampleOpen;
     Glob := fun _ => LibOk [] |}.

(** The same descriptor in a directory without any grammar file. *)
Definition bareOS : OS :=
  {| Stat := fun path =>
       if path =? "g/pom.xml" then None else Some ErrNotExist;
     Open := fun path =>
       if path =? "g/pom.xml" then LibOk sampleDescriptor
       else LibErr (LibError "no such file or directory");
     Glob := fun _ => LibOk [] |}.

(** What [ParsePom] makes of the sample descriptor. *)
Definition sampleProject : Project :=
  {| FileName := "g/pom.xml";
     LongName := "Foo";
     Includes := ["g/Foo.GoTarget.g4"; "g/Notes.g4"];
     Grammars := [ {| Name := "Foo"; Filename := "g/Foo.GoTarget.g4";
                      Type_ := "COMBINED" |} ];
     EntryPoint := "prog";
     ExampleRoot := "";
     Examples := [];
     CaseInsensitiveType := "";
     FoundAntlr4MavenPlugin := true |}.

Definition sampleLog : list logEntry :=
  [LogMissingGrammar "g/Missing.g4" "g/pom.xml";
   LogFailedToParse "g/Notes.g4" ErrNoFields].

(** A tree in which the extension occurs in a directory name as well, and
    both candidate variants are there. *)
Definition twoExtensionsOS : OS :=
  {| Stat := fun path =>
       if (path =? "src.g4/Foo.g4")
          || (path =? "src.GoTarget.g4/Foo.g4")
          || (path =? "src.GoTarget.g4/Foo.GoTarget.g4")
       then None else Some ErrNotExist;
     Open := fun _ => LibErr (LibError "permission denied");
     Glob := fun _ => LibOk [] |}.

(** A descriptor that refers to [Foo.g4/x.g4] where [Foo.g4] and
    [Foo.GoTarget.g4] are files, not directories. *)
Definition fileInTheWayTokens : Decoder :=
  textElement "include" "Foo.g4/x.g4" (TokenNil eof).

Definition fileInTheWayOpen (path : string) : libresult File :=
  if path =? "g/pom.xml" then
    LibOk {| lines := []; scanErr := None; tokens := fileInTheWayTokens |}
  else if (path =? "g/Foo.g4") || (path =? "g/Foo.GoTarget.g4") then
    LibOk (textFile ["grammar Foo;"])
  else if HasPrefix path "g/Foo.g4/" || HasPrefix path "g/Foo.GoTarget.g4/"
       then LibErr (LibError "not a directory")
  else LibErr (LibError "no such file or directory").

Definition fileInTheWayOS : OS :=
  {| Stat := fun path =>
       if (path =? "g/pom.xml") || (path =? "g/Foo.g4")
          || (path =? "g/Foo.GoTarget.g4")
       then None
       else if HasPrefix path "g/Foo.g4/"
               || HasPrefix path "g/Foo.GoTarget.g4/"
            then Some ErrNotDir
       else Some ErrNotExist;
     Open := fileInTheWayOpen;
     Glob := fun _ => LibOk [] |}.

Definition fileInTheWayProject : Project :=
  setIncludes (newProject "g/pom.xml") ["g/Foo.GoTarget.g4/x.GoTarget.g4"].

Definition fileInTheWayLog : list logEntry :=
  [LogFailedToParse "g/Foo.GoTarget.g4/x.GoTarget.g4"
     (FromLibrary (LibError "not a directory"))].

(** ** Further readings of the code, for the properties of the whole package *)

(** The types [Grammar.GeneratedFilenames] has a case for. *)
Definition knownType (t : string) : bool :=
  (t =? "LEXER") || (t =? "PARSER") || (t =? "COMBINED").

(** The names [Grammar.GeneratedFilenames] returns; none where it panics. *)
Definition generatedNames (g : Grammar) : list string :=
  match Grammar_GeneratedFilenames g with
  | Returns fs => fs
  | Panics _ => []
  end.

(** No byte of the string is one of ['A'..'Z']. *)
Fixpoint noUpperCase (s : string) : bool :=
  match s with
  | "" => true
  | String c r =>
      negb ((65 <=? N_of_ascii c) && (N_of_ascii c <=? 90))%N && noUpperCase r
  end.

(** The elements with a case that the reader decodes on its way through the
    descriptor, each with the text of its body, in order. *)
Fixpoint elementsRead (d : Decoder) : list (string * string) :=
  match d with
  | TokenNil _ => []
  | TokenOther next => elementsRead next
  | TokenStart local body afterBody inside =>
      if recognized local then
        match body with
        | LibErr _ => []
        | LibOk text => (local, text) :: elementsRead afterBody
        end
      else elementsRead inside
  end.

(** The texts of the elements named [local] among them. *)
Definition textsOf (local : string) (els : list (string * string))
  : list string :=
  map snd (filter (fun e => fst e =? local) els).

Definition isFailedToParse (entry : logEntry) : bool :=
  match entry with
  | LogFailedToParse _ _ => true
  | LogMissingGrammar _ _ => false
  end.

(** The warnings account for the includes: a failed scan is logged for
    exactly the includes whose scan fails, with its error; a missing grammar
    is logged, for this descriptor, only of a path that [fileExists] denies;
    and
    each include has either a grammar or a logged failure. *)
Definition logAccounts (os : OS) (path : string) (p : Project)
  (log : list logEntry) : Prop :=
  (forall f e, In (LogFailedToParse f e) log <->
               In f (Includes p) /\ ParseG4 os f = Err e)
  /\ (forall f pth, In (LogMissingGrammar f pth) log ->
                    pth = path /\ fileExists os f = false)
  /\ List.length (Includes p) =
     List.length (Grammars p) + List.length (filter isFailedToParse log).

(** A descriptor with two names and an example directory. *)
Definition examplesTokens : Decoder :=
  textElement "grammarName" "Draft"
  (textElement "exampleFiles" "examples"
  (textElement "grammarName" "Calc"
  (textElement "artifactId" "antlr4-maven-plugin"
  (textElement "artifactId" "calc"
  (TokenNil eof))))).

Definition examplesOS : OS :=
  {| Stat := fun _ => Some ErrNotExist;
     Open := fun path =>
       if path =? "grammars/calc/pom.xml"
       then LibOk {| lines := []; scanErr := None; tokens := examplesTokens |}
       else LibErr (LibError "no such file or directory");
     Glob := fun pattern =>
       if pattern =? "grammars/calc/examples/*"
       then LibOk ["grammars/calc/examples/sum.txt"]
       else LibOk [] |}.

Definition examplesProject : Project :=
  {| FileName := "grammars/calc/pom.xml";
     LongName := "Calc";
     Includes := [];
     Grammars := [];
     EntryPoint := "";
     ExampleRoot := "../";
     Examples := ["grammars/calc/examples/sum.txt"];
     CaseInsensitiveType := "";
     FoundAntlr4MavenPlugin := true |}.

Definition fooParserOnly : Project :=
  projectOf [grammarNamed "FooParser" "PARSER"].

(** A project with a grammar of a type the package does not know. *)
Definition treeProject : Project :=
  projectOf [grammarNamed "Foo" "COMBINED"; grammarNamed "FooTree" "TREE";
             grammarNamed "FooLexer" "LEXER"].

(** A descriptor without any element that has a case. *)
Definition plainTokens : Decoder :=
  TokenStart "project" (LibOk "") (TokenNil eof)
    (TokenOther
       (TokenStart "modelVersion" (LibOk "4.0.0") (TokenNil eof)
          (TokenOther (TokenOther (TokenOther (TokenNil eof)))))).

Definition plainOS : OS :=
  {| Stat := fun _ => Some ErrNotExist;
     Open := fun path =>
       if path =? "plain/pom.xml"
       then LibOk {| lines := []; scanErr := None; tokens := plainTokens |}
       else LibErr (LibError "no such file or directory");
     Glob := fun _ => LibOk [] |}.

(** * Properties *)

(** ** Strings *)

Lemma length_append (s t : string) :
  String.length (s +++ t) = String.length s + String.length t.
Proof. induction s as [|c s IH]; simpl; [reflexivity | now rewrite IH]. Qed.

Lemma sliceTo_append (s t : string) : sliceTo (String.length s) (s +++ t) = s.
Proof. induction s as [|c s IH]; simpl; [now destruct t | now rewrite IH]. Qed.

Lemma sliceFrom_append (s t : string) :
  sliceFrom (String.length s) (s +++ t) = t.
Proof. induction s as [|c s IH]; simpl; [now destruct t | exact IH]. Qed.

Lemma HasSuffix_append (s suffix : string) : HasSuffix (s +++ suffix) suffix = true.
Proof.
  unfold HasSuffix. rewrite length_append.
  replace (String.length s + String.length suffix - String.length suffix)
    with (String.length s) by lia.
  rewrite sliceFrom_append, String.eqb_refl.
  apply andb_true_iff; split; [apply Nat.leb_le; lia | reflexivity].
Qed.

(** A name that ends with the suffix loses exactly the suffix. *)
Lemma TrimSuffix_append (s suffix : string) : TrimSuffix (s +++ suffix) suffix = s.
Proof.
  unfold TrimSuffix. rewrite HasSuffix_append, length_append.
  replace (String.length s + String.length suffix - String.length suffix)
    with (String.length s) by lia.
  apply sliceTo_append.
Qed.

Lemma TrimSuffix_without (s suffix : string) :
  HasSuffix s suffix = false -> TrimSuffix s suffix = s.
Proof. unfold TrimSuffix. now intros ->. Qed.

(** ** The name deriver *)

Lemma findGrammarOfType_None (p : Project) (t : string) :
  findGrammarOfType p t = None <->
  (forall g, In g (Grammars p) -> Type_ g <> t).
Proof.
  unfold findGrammarOfType. split.
  - intros H g Hg. apply String.eqb_neq. exact (find_none _ _ H g Hg).
  - intros H. induction (Grammars p) as [|g gs IH]; simpl; [reflexivity|].
    destruct (String.eqb_spec (Type_ g) t) as [E|_].
    + exfalso. exact (H g (or_introl eq_refl) E).
    + apply IH. intros g' Hg'. apply H. now right.
Qed.

Lemma noParserGrammar_find (p : Project) :
  noParserGrammar p <->
  findGrammarOfType p "PARSER" = None /\ findGrammarOfType p "COMBINED" = None.
Proof.
  rewrite !findGrammarOfType_None. unfold noParserGrammar. split.
  - intros H. split; intros g Hg; now apply H.
  - intros [H1 H2] g Hg. split; [now apply H1 | now apply H2].
Qed.

(** The loop of [Project.GeneratedFilenames] only ever appends. *)
Lemma appendGenerated_files (gs : list Grammar) (files : list string) :
  appendGenerated gs files =
  match appendGenerated gs [] with
  | Returns fs => Returns (files ++ fs)
  | Panics v => Panics v
  end.
Proof.
  revert files. induction gs as [|g gs IH]; intros files; simpl.
  - now rewrite app_nil_r.
  - destruct (Grammar_GeneratedFilenames g) as [fs|v]; [|reflexivity].
    rewrite (IH (files ++ fs)), (IH fs).
    destruct (appendGenerated gs []) as [fs'|v]; [|reflexivity].
    now rewrite app_assoc.
Qed.

(** The names of a project are those of its grammars, one grammar after the
    other. *)
Lemma appendGenerated_split (before after : list Grammar) (g : Grammar)
  (files : list string) :
  appendGenerated (before ++ g :: after) [] = Returns files ->
  exists fb fg fa,
    appendGenerated before [] = Returns fb
    /\ Grammar_GeneratedFilenames g = Returns fg
    /\ appendGenerated after [] = Returns fa
    /\ files = fb ++ fg ++ fa.
Proof.
  revert files. induction before as [|b before IH]; intros files; simpl.
  - destruct (Grammar_GeneratedFilenames g) as [fg|v]; [|discriminate].
    rewrite appendGenerated_files.
    destruct (appendGenerated after []) as [fa|v]; [|discriminate].
    intros [= <-]. now exists [], fg, fa.
  - destruct (Grammar_GeneratedFilenames b) as [fs|v]; [|discriminate].
    rewrite appendGenerated_files.
    destruct (appendGenerated (before ++ g :: after) []) as [r|v] eqn:E;
      [|discriminate].
    intros [= <-].
    destruct (IH r eq_refl) as (fb & fg & fa & Hb & Hg & Ha & ->).
    exists (fs ++ fb), fg, fa. rewrite (appendGenerated_files before fs), Hb.
    repeat split; try assumption. now rewrite app_assoc.
Qed.

Lemma Grammar_GeneratedFilenames_PARSER (g : Grammar) :
  Type_ g = "PARSER" ->
  Grammar_GeneratedFilenames g =
  Returns [ToLower (Name g) +++ "_base_listener.go";
           ToLower (Name g) +++ "_listener.go";
           ToLower (TrimSuffix (Name g) "Parser") +++ "_parser.go"].
Proof. unfold Grammar_GeneratedFilenames. now intros ->. Qed.

Lemma Grammar_GeneratedFilenames_COMBINED (g : Grammar) :
  Type_ g = "COMBINED" ->
  Grammar_GeneratedFilenames g =
  Returns [ToLower (Name g) +++ "_base_listener.go";
           ToLower (Name g) +++ "_listener.go";
           ToLower (Name g) +++ "_parser.go";
           ToLower (Name g) +++ "_lexer.go"].
Proof. unfold Grammar_GeneratedFilenames. now intros ->. Qed.

Lemma Grammar_GeneratedFilenames_LEXER (g : Grammar) :
  Type_ g = "LEXER" ->
  Grammar_GeneratedFilenames g =
  Returns [ToLower (TrimSuffix (Name g) "Lexer") +++ "_lexer.go"].
Proof. unfold Grammar_GeneratedFilenames. now intros ->. Qed.

(** The split form of a grammar [n]: the parser and lexer files are named
    after [n], the listener files after the parser grammar. *)
Lemma split_GeneratedFilenames (p : Project) (n fp fl : string) :
  Grammars p =
    [ {| Name := n +++ "Parser"; Filename := fp; Type_ := "PARSER" |};
      {| Name := n +++ "Lexer"; Filename := fl; Type_ := "LEXER" |} ] ->
  Project_GeneratedFilenames p =
  Returns [ToLower (n +++ "Parser") +++ "_base_listener.go";
           ToLower (n +++ "Parser") +++ "_listener.go";
           ToLower n +++ "_parser.go";
           ToLower n +++ "_lexer.go"].
Proof.
  intros H. unfold Project_GeneratedFilenames. rewrite H.
  cbn [appendGenerated].
  rewrite Grammar_GeneratedFilenames_PARSER by reflexivity.
  rewrite Grammar_GeneratedFilenames_LEXER by reflexivity.
  cbn [Name app]. now rewrite !TrimSuffix_append.
Qed.

Lemma combined_GeneratedFilenames (p : Project) (n fc : string) :
  Grammars p = [ {| Name := n; Filename := fc; Type_ := "COMBINED" |} ] ->
  Project_GeneratedFilenames p =
  Returns [ToLower n +++ "_base_listener.go"; ToLower n +++ "_listener.go";
           ToLower n +++ "_parser.go"; ToLower n +++ "_lexer.go"].
Proof.
  intros H. unfold Project_GeneratedFilenames. rewrite H.
  cbn [appendGenerated].
  now rewrite Grammar_GeneratedFilenames_COMBINED by reflexivity.
Qed.

(** C1, as amended: for a project whose grammars are a PARSER grammar
    "FooParser" followed by a LEXER grammar "FooLexer",
    [GeneratedFilenames] returns "fooparser_base_listener.go",
    "fooparser_listener.go", "foo_parser.go", "foo_lexer.go"; for a project
    with the one COMBINED grammar "Foo" it returns "foo_base_listener.go",
    "foo_listener.go", "foo_parser.go", "foo_lexer.go".  The parser and the
    lexer file have the same names in both forms; the two listener files of
    the split form carry the full name of the parser grammar. *)
Theorem split_form_shares_parser_and_lexer_files :
  forall (p q : Project) (fp fl fc : string),
    Grammars p =
      [ {| Name := "FooParser"; Filename := fp; Type_ := "PARSER" |};
        {| Name := "FooLexer"; Filename := fl; Type_ := "LEXER" |} ] ->
    Grammars q = [ {| Name := "Foo"; Filename := fc; Type_ := "COMBINED" |} ] ->
    Project_GeneratedFilenames p =
      Returns ["fooparser_base_listener.go"; "fooparser_listener.go";
               "foo_parser.go"; "foo_lexer.go"]
    /\ Project_GeneratedFilenames q =
      Returns ["foo_base_listener.go"; "foo_listener.go";
               "foo_parser.go"; "foo_lexer.go"].
Proof.
  intros p q fp fl fc Hp Hq. split.
  - exact (split_GeneratedFilenames p "Foo" fp fl Hp).
  - exact (combined_GeneratedFilenames q "Foo" fc Hq).
Qed.

(** C2, as amended: for a project whose grammars are exactly one COMBINED
    grammar named "Foo", [GeneratedFilenames] returns exactly
    "foo_base_listener.go", "foo_listener.go", "foo_parser.go",
    "foo_lexer.go", in that order: each name ends in ".go". *)
Theorem combined_Foo_filenames :
  forall (p : Project) (fc : string),
    Grammars p = [ {| Name := "Foo"; Filename := fc; Type_ := "COMBINED" |} ] ->
    Project_GeneratedFilenames p =
      Returns ["foo_base_listener.go"; "foo_listener.go";
               "foo_parser.go"; "foo_lexer.go"]
    /\ Grammar_GeneratedFilenames
         {| Name := "Foo"; Filename := fc; Type_ := "COMBINED" |} =
      Returns ["foo_base_listener.go"; "foo_listener.go";
               "foo_parser.go"; "foo_lexer.go"].
Proof.
  intros p fc Hp. split; [|reflexivity].
  exact (combined_GeneratedFilenames p "Foo" fc Hp).
Qed.

(** C3, as amended: for every grammar of type LEXER, [GeneratedFilenames]
    gives exactly one name: the grammar's name without a trailing "Lexer",
    lower-cased, followed by "_lexer.go".  So a name [n ++ "Lexer"] gives
    the lower-cased [n] and "_lexer.go", a name that does not end in "Lexer"
    is taken whole; and in the list of a project that name stands between
    the names of the grammars before and after. *)
Theorem lexer_filename_drops_Lexer_suffix :
  forall g : Grammar,
    Type_ g = "LEXER" ->
    Grammar_GeneratedFilenames g =
      Returns [ToLower (TrimSuffix (Name g) "Lexer") +++ "_lexer.go"]
    /\ (forall n, Name g = n +++ "Lexer" ->
          Grammar_GeneratedFilenames g = Returns [ToLower n +++ "_lexer.go"])
    /\ (HasSuffix (Name g) "Lexer" = false ->
          Grammar_GeneratedFilenames g =
            Returns [ToLower (Name g) +++ "_lexer.go"])
    /\ (forall p before after files,
          Grammars p = before ++ g :: after ->
          Project_GeneratedFilenames p = Returns files ->
          exists fb fa,
            appendGenerated before [] = Returns fb
            /\ appendGenerated after [] = Returns fa
            /\ files =
               fb ++ [ToLower (TrimSuffix (Name g) "Lexer") +++ "_lexer.go"]
                  ++ fa).
Proof.
  intros g Hg.
  pose proof (Grammar_GeneratedFilenames_LEXER g Hg) as E.
  repeat split.
  - exact E.
  - intros n Hn. rewrite E, Hn. now rewrite TrimSuffix_append.
  - intros Hs. rewrite E. now rewrite TrimSuffix_without.
  - intros p before after files Hp Hf.
    unfold Project_GeneratedFilenames in Hf. rewrite Hp in Hf.
    destruct (appendGenerated_split _ _ _ _ Hf)
      as (fb & fg & fa & Hb & Hgen & Ha & ->).
    rewrite E in Hgen. injection Hgen as <-. now exists fb, fa.
Qed.

(** C7, as amended: for every project without a PARSER and without a
    COMBINED grammar, [ListenerName] and [grammarParserName] (and with it
    [ParserName]) panic with the message that the project's file "does not
    contain a parser"; no value and no error comes back to the caller. *)
Theorem no_parser_grammar_panics :
  forall p : Project,
    noParserGrammar p ->
    ListenerName p = Panics (NoParser (FileName p))
    /\ grammarParserName p = Panics (NoParser (FileName p))
    /\ ParserName p = Panics (NoParser (FileName p))
    /\ ~ returnsToCaller (ListenerName p)
    /\ ~ returnsToCaller (grammarParserName p).
Proof.
  intros p H. apply noParserGrammar_find in H. destruct H as [HP HC].
  unfold ParserName, ListenerName, grammarParserName, returnsToCaller.
  rewrite HP, HC. repeat split; try reflexivity; intros [a Ha]; discriminate.
Qed.

(** ** The grammar header scanner *)

Lemma nth_last_index (l : list string) (d : string) :
  nth (List.length l - 1) l d = last l d.
Proof.
  induction l as [|x l IH]; [reflexivity|].
  destruct l as [|y l]; [reflexivity|].
  cbn [List.length last] in *.
  replace (S (S (List.length l)) - 1) with (S (S (List.length l) - 1)) by lia.
  exact IH.
Qed.

Lemma HasPrefix_byte (c d : ascii) (s : string) :
  HasPrefix (String d s) (String c "") = true <-> c = d.
Proof.
  unfold HasPrefix. simpl. destruct (ascii_dec c d) as [E|N].
  - split; [intros _; exact E | destruct s; reflexivity].
  - split; [discriminate | intros E; contradiction].
Qed.





(** The keywords are tried in the order "grammar", "lexer", "parser". *)
Lemma headerType_cases (line : string) :
  (HasPrefix line "grammar" = true /\ headerType line = "COMBINED")
  \/ (HasPrefix line "grammar" = false /\ HasPrefix line "lexer" = true
      /\ headerType line = "LEXER")
  \/ (HasPrefix line "grammar" = false /\ HasPrefix line "lexer" = false
      /\ HasPrefix line "parser" = true /\ headerType line = "PARSER")
  \/ (HasPrefix line "grammar" = false /\ HasPrefix line "lexer" = false
      /\ HasPrefix line "parser" = false /\ headerType line = "").
Proof.
  unfold headerType.
  destruct (HasPrefix line "grammar"); [now left|].
  destruct (HasPrefix line "lexer"); [now right; left|].
  destruct (HasPrefix line "parser"); [now right; right; left|].
  now right; right; right.
Qed.

(** What [parseHeader] makes of a header line. *)
Lemma parseHeader_eq (path line t : string) :
  parseHeader path line t =
  let parts := Fields (cutAtSemicolon line) in
  if (List.length parts <? 2)%nat then Err (ErrGrammarName (cutAtSemicolon line))
  else Ok {| Name := last parts ""; Filename := path; Type_ := t |}.
Proof. unfold parseHeader. cbv zeta. now rewrite nth_last_index. Qed.

(** The loop ends without a [return] exactly when no line is a header
    line. *)
Lemma scanLines_None (path : string) (ls : list string) :
  scanLines path ls = None <->
  (forall l, In l ls -> headerType (TrimSpace l) = "").
Proof.
  induction ls as [|text ls IH]; simpl.
  - split; [intros _ l [] | reflexivity].
  - destruct (String.eqb_spec (headerType (TrimSpace text)) "") as [E|N]; simpl.
    + rewrite IH. split.
      * intros H l [<-|Hl]; [exact E | now apply H].
      * intros H l Hl. apply H. now right.
    + split; [discriminate|]. intros H. exfalso. apply N, H. now left.
Qed.

(** It returns at the first header line, with what [parseHeader] makes of
    that line. *)
Lemma scanLines_Some (path : string) (ls : list string) (r : result Grammar) :
  scanLines path ls = Some r <->
  exists before text after,
    ls = before ++ text :: after
    /\ (forall l, In l before -> headerType (TrimSpace l) = "")
    /\ headerType (TrimSpace text) <> ""
    /\ r = parseHeader path (TrimSpace text) (headerType (TrimSpace text)).
Proof.
  induction ls as [|x ls IH]; simpl.
  - split; [discriminate|]. intros (before & text & after & H & _).
    now destruct before.
  - destruct (String.eqb_spec (headerType (TrimSpace x)) "") as [E|N]; simpl.
    + rewrite IH. split.
      * intros (before & text & after & -> & Hb & Ht & ->).
        exists (x :: before), text, after. repeat split; try assumption.
        intros l [<-|Hl]; [exact E | now apply Hb].
      * intros (before & text & after & Hls & Hb & Ht & ->).
        destruct before as [|b before]; simpl in Hls; injection Hls as -> ->.
        -- contradiction.
        -- exists before, text, after. repeat split; try assumption.
           intros l Hl. apply Hb. now right.
    + split.
      * intros [= <-]. exists [], x, ls. repeat split; try assumption.
        intros l [].
      * intros (before & text & after & Hls & Hb & Ht & ->).
        destruct before as [|b before]; simpl in Hls; injection Hls as -> ->.
        -- reflexivity.
        -- exfalso. apply N, Hb. now left.
Qed.

Lemma scanLines_at_first_header (path : string)
  (before after : list string) (text : string) :
  (forall l, In l before -> headerType (TrimSpace l) = "") ->
  headerType (TrimSpace text) <> "" ->
  scanLines path (before ++ text :: after) =
  Some (parseHeader path (TrimSpace text) (headerType (TrimSpace text))).
Proof.
  intros Hb Ht. apply scanLines_Some. now exists before, text, after.
Qed.

(** The header forms of a combined and of a parser grammar. *)
Example parseHeader_grammar_Foo :
  parseHeader "Foo.g4" (TrimSpace "grammar Foo;")
              (headerType (TrimSpace "grammar Foo;")) =
  Ok {| Name := "Foo"; Filename := "Foo.g4"; Type_ := "COMBINED" |}.
Proof. reflexivity. Qed.

Example parseHeader_parser_grammar_FooParser :
  parseHeader "FooParser.g4" (TrimSpace "  parser grammar FooParser ; // x")
              (headerType (TrimSpace "  parser grammar FooParser ; // x")) =
  Ok {| Name := "FooParser"; Filename := "FooParser.g4"; Type_ := "PARSER" |}.
Proof. reflexivity. Qed.


(** C6: [ParseG4] fails with the grammar-name error exactly when the file
    opens and the first header line, cut at its ";" and split on white
    space, has fewer than two tokens; it fails with the fields-not-found
    error exactly when the file opens, the scanner reaches the end of the
    file without an error, and no line is a header line.  Whenever it fails
    it returns no Grammar. *)
Theorem ParseG4_failures :
  forall (os : OS) (path : string),
    (forall cut,
        ParseG4 os path = Err (ErrGrammarName cut) <->
        exists f before text after,
          Open os path = LibOk f
          /\ lines f = before ++ text :: after
          /\ (forall l, In l before -> headerType (TrimSpace l) = "")
          /\ headerType (TrimSpace text) <> ""
          /\ List.length (Fields (cutAtSemicolon (TrimSpace text))) < 2
          /\ cut = cutAtSemicolon (TrimSpace text))
    /\ (ParseG4 os path = Err ErrNoFields <->
        exists f,
          Open os path = LibOk f
          /\ (forall l, In l (lines f) -> headerType (TrimSpace l) = "")
          /\ scanErr f = None)
    /\ (forall e, ParseG4 os path = Err e ->
                  forall g, ParseG4 os path <> Ok g).
Proof.
  intros os path. repeat split.
  - unfold ParseG4. destruct (Open os path) as [f|e]; [|discriminate].
    destruct (scanLines path (lines f)) as [r|] eqn:E.
    + apply scanLines_Some in E.
      destruct E as (before & text & after & Hl & Hb & Ht & ->).
      rewrite parseHeader_eq. cbv zeta.
      destruct (Nat.ltb_spec
                  (List.length (Fields (cutAtSemicolon (TrimSpace text)))) 2)
        as [Hlt|Hge]; [|discriminate].
      intros [= <-]. now exists f, before, text, after.
    + destruct (scanErr f); discriminate.
  - intros (f & before & text & after & Hopen & Hl & Hb & Ht & Hlt & ->).
    unfold ParseG4. rewrite Hopen, Hl.
    rewrite (scanLines_at_first_header path before after text Hb Ht).
    rewrite parseHeader_eq. cbv zeta.
    now rewrite (proj2 (Nat.ltb_lt _ _) Hlt).
  - unfold ParseG4. destruct (Open os path) as [f|e]; [|discriminate].
    destruct (scanLines path (lines f)) as [r|] eqn:E.
    + apply scanLines_Some in E.
      destruct E as (before & text & after & Hl & Hb & Ht & ->).
      rewrite parseHeader_eq. cbv zeta.
      destruct (List.length (Fields (cutAtSemicolon (TrimSpace text))) <? 2)%nat;
        discriminate.
    + pose proof (proj1 (scanLines_None _ _) E) as Hno.
      destruct (scanErr f) eqn:Es; [discriminate|].
      intros _. now exists f.
  - intros (f & Hopen & Hl & Hs). unfold ParseG4. rewrite Hopen.
    now rewrite (proj2 (scanLines_None path (lines f)) Hl), Hs.
  - intros e He g Hg. rewrite He in Hg. discriminate.
Qed.

(** ** The descriptor reader *)

(** [fileExists] denies a path exactly when [os.Stat] fails on it with an
    error that [os.IsNotExist] recognises. *)
Lemma fileExists_false (os : OS) (path : string) :
  fileExists os path = false <-> Stat os path = Some ErrNotExist.
Proof.
  unfold fileExists, os_IsNotExist.
  destruct (Stat os path) as [[| |e]|]; simpl; split; congruence.
Qed.

Lemma fileExists_true (os : OS) (path : string) :
  fileExists os path = true <-> Stat os path <> Some ErrNotExist.
Proof.
  unfold fileExists, os_IsNotExist.
  destruct (Stat os path) as [[| |e]|]; simpl; split; congruence.
Qed.

Lemma textsOf_cons (name local text : string) (els : list (string * string)) :
  textsOf name ((local, text) :: els) =
  if local =? name then text :: textsOf name els else textsOf name els.
Proof. unfold textsOf. simpl. now destruct (local =? name). Qed.

Lemma contains_In (haystack : list string) (needle : string) :
  contains haystack needle = true <-> In needle haystack.
Proof.
  induction haystack as [|straw rest IH]; simpl.
  - split; [discriminate | intros []].
  - destruct (String.eqb_spec straw needle) as [E|N].
    + split; [intros _; now left | reflexivity].
    + rewrite IH. split; [now right | intros [E|H]; [contradiction | exact H]].
Qed.

Lemma contains_not_In (haystack : list string) (needle : string) :
  contains haystack needle = false <-> ~ In needle haystack.
Proof.
  rewrite <- contains_In. destruct (contains haystack needle); split;
    congruence.
Qed.

Lemma parseHeader_Filename (path line t : string) (g : Grammar) :
  parseHeader path line t = Ok g -> Filename g = path.
Proof.
  unfold parseHeader.
  destruct (List.length (Fields (cutAtSemicolon line)) <? 2)%nat;
    [discriminate|].
  now intros [= <-].
Qed.

(** A grammar carries the path it was read from. *)
Lemma ParseG4_Filename (os : OS) (path : string) (g : Grammar) :
  ParseG4 os path = Ok g -> Filename g = path.
Proof.
  unfold ParseG4. destruct (Open os path) as [f|e]; [|discriminate].
  destruct (scanLines path (lines f)) as [r|] eqn:E.
  - apply scanLines_Some in E. destruct E as (b & t & a & _ & _ & _ & ->).
    apply parseHeader_Filename.
  - destruct (scanErr f); discriminate.
Qed.

(** The four ways through the case of an include. *)
Lemma includeGrammar_cases (os : OS) (path : string) (p : Project)
  (log : list logEntry) (file : string) :
  let f := upgradeFile os file in
  (fileExists os f = false
   /\ includeGrammar os path p log file = (p, log ++ [LogMissingGrammar f path]))
  \/ (fileExists os f = true /\ In f (Includes p)
      /\ includeGrammar os path p log file = (p, log))
  \/ (fileExists os f = true /\ ~ In f (Includes p)
      /\ exists err, ParseG4 os f = Err err
         /\ includeGrammar os path p log file =
            (setIncludes p (Includes p ++ [f]),
             log ++ [LogFailedToParse f err]))
  \/ (fileExists os f = true /\ ~ In f (Includes p)
      /\ exists g, ParseG4 os f = Ok g
         /\ includeGrammar os path p log file =
            (setGrammars (setIncludes p (Includes p ++ [f]))
                         (Grammars p ++ [g]), log)).
Proof.
  intros f. unfold includeGrammar. fold f.
  destruct (fileExists os f) eqn:Ex; simpl; [|now left].
  right. destruct (contains (Includes p) f) eqn:C.
  - left. apply contains_In in C. now repeat split.
  - right. apply contains_not_In in C.
    destruct (ParseG4 os f) as [g|err] eqn:P.
    + right. repeat split; try assumption. now exists g.
    + left. repeat split; try assumption. now exists err.
Qed.

(** What an include does to [Includes]: the file is added once if it is
    there, and [Grammars] follows [Includes]. *)
Lemma includeGrammar_Includes (os : OS) (path : string) (p : Project)
  (log : list logEntry) (file : string) :
  Includes (fst (includeGrammar os path p log file)) =
  if fileExists os (upgradeFile os file)
  then addOnce (Includes p) (upgradeFile os file)
  else Includes p.
Proof.
  unfold addOnce.
  destruct (includeGrammar_cases os path p log file)
    as [(Ex & E)|[(Ex & Hin & E)|[(Ex & Hn & e & _ & E)|(Ex & Hn & g & _ & E)]]];
    rewrite E, Ex; simpl; try reflexivity.
  - now rewrite (proj2 (contains_In _ _) Hin).
  - now rewrite (proj2 (contains_not_In _ _) Hn).
  - now rewrite (proj2 (contains_not_In _ _) Hn).
Qed.

Lemma classified_app (os : OS) (l l' : list string) :
  classified os (l ++ l') = classified os l ++ classified os l'.
Proof. apply flat_map_app. Qed.

Lemma includeGrammar_Grammars (os : OS) (path : string) (p : Project)
  (log : list logEntry) (file : string) :
  Grammars p = classified os (Includes p) ->
  Grammars (fst (includeGrammar os path p log file)) =
  classified os (Includes (fst (includeGrammar os path p log file))).
Proof.
  intros Inv.
  destruct (includeGrammar_cases os path p log file)
    as [(Ex & E)|[(Ex & Hin & E)|[(Ex & Hn & e & P & E)|(Ex & Hn & g & P & E)]]];
    rewrite E; simpl; try assumption;
    rewrite classified_app; simpl; rewrite P, <- Inv; simpl;
    now rewrite ?app_nil_r.
Qed.

Lemma includeGrammar_others (os : OS) (path : string) (p : Project)
  (log : list logEntry) (file : string) :
  sameFieldsButGrammars p (fst (includeGrammar os path p log file)).
Proof.
  destruct (includeGrammar_cases os path p log file)
    as [(Ex & E)|[(Ex & Hin & E)|[(Ex & Hn & e & P & E)|(Ex & Hn & g & P & E)]]];
    rewrite E; now repeat split.
Qed.

(** An element that is no include leaves [Includes], [Grammars] and the
    log alone; an include does what [includeGrammar] does. *)
Lemma element_include (os : OS) (path dir local text : string) (p : Project)
  (log : list logEntry) :
  isInclude local = true ->
  element os path dir local text p log =
  (Ok (fst (includeGrammar os path p log (filepath_Join [dir; text]))),
   snd (includeGrammar os path p log (filepath_Join [dir; text]))).
Proof.
  unfold element. intros H.
  destruct (String.eqb_spec local "artifactId") as [->|_]; [discriminate|].
  rewrite H. now destruct (includeGrammar _ _ _ _ _).
Qed.

Lemma element_other (os : OS) (path dir local text : string) (p p' : Project)
  (log log' : list logEntry) :
  isInclude local = false ->
  element os path dir local text p log = (Ok p', log') ->
  Includes p' = Includes p /\ Grammars p' = Grammars p /\ log' = log.
Proof.
  unfold element. intros ->.
  repeat match goal with
         | |- context [if ?b then _ else _] => destruct b
         | |- context [match ?x with LibOk _ => _ | LibErr _ => _ end] =>
             destruct x
         end;
    intros [= <- <-]; now repeat split.
Qed.

(** A property of the project that every element keeps holds of the
    project the reader returns. *)
Lemma parseTokens_invariant (os : OS) (path dir : string)
  (I : Project -> Prop) :
  (forall local text p log p' log',
      I p -> element os path dir local text p log = (Ok p', log') -> I p') ->
  forall d p log p' log',
    I p -> parseTokens os path dir d p log = (Ok p', log') -> I p'.
Proof.
  intros Hstep.
  induction d as [e|next IH|local body afterBody IHa inside IHi];
    intros p log p' log' Hp; simpl.
  - now intros [= <- _].
  - apply IH, Hp.
  - destruct (recognized local); [|apply IHi, Hp].
    destruct body as [text|e]; [|discriminate].
    destruct (element os path dir local text p log) as [[q|e] l] eqn:E;
      [|discriminate].
    apply IHa. exact (Hstep _ _ _ _ _ _ Hp E).
Qed.

Lemma element_keeps (os : OS) (path dir : string) (I : Project -> Prop) :
  (forall p log file, I p -> I (fst (includeGrammar os path p log file))) ->
  (forall p p', Includes p' = Includes p -> Grammars p' = Grammars p ->
                I p -> I p') ->
  forall local text p log p' log',
    I p -> element os path dir local text p log = (Ok p', log') -> I p'.
Proof.
  intros Hinc Hoth local text p log p' log' Hp E.
  destruct (isInclude local) eqn:K.
  - rewrite element_include in E by exact K. injection E as <- <-.
    now apply Hinc.
  - destruct (element_other _ _ _ _ _ _ _ _ _ K E) as (Hi & Hg & _).
    now apply (Hoth p p').
Qed.

(** *** The list of includes *)

Lemma addOnce_NoDup (seen : list string) (x : string) :
  NoDup seen -> NoDup (addOnce seen x).
Proof.
  intros H. unfold addOnce. destruct (contains seen x) eqn:C; [exact H|].
  apply contains_not_In in C. apply NoDup_app; [exact H | | ].
  - constructor; [intros [] | constructor].
  - intros a Ha [<-|[]]. contradiction.
Qed.

Lemma fold_addOnce_NoDup (l seen : list string) :
  NoDup seen -> NoDup (fold_left addOnce l seen).
Proof.
  revert seen. induction l as [|x l IH]; intros seen H; simpl; [exact H|].
  apply IH, addOnce_NoDup, H.
Qed.

Lemma addOnce_In (seen : list string) (x y : string) :
  In y (addOnce seen x) <-> In y seen \/ y = x.
Proof.
  unfold addOnce. destruct (contains seen x) eqn:C.
  - apply contains_In in C. split; [now left | intros [H| ->]; assumption].
  - rewrite in_app_iff. simpl. split.
    + intros [H|[<-|[]]]; [now left | now right].
    + intros [H| ->]; [now left | right; now left].
Qed.

Lemma fold_addOnce_In (l seen : list string) (y : string) :
  In y (fold_left addOnce l seen) <-> In y seen \/ In y l.
Proof.
  revert seen. induction l as [|x l IH]; intros seen; simpl.
  - split; [now left | intros [H|[]]; exact H].
  - rewrite IH, addOnce_In. split.
    + intros [[H| ->]|H]; [now left | right; now left | right; now right].
    + intros [H|[<-|H]]; [left; now left | left; now right | now right].
Qed.

(** The includes of the project that is returned: the files referenced, as
    far as they are there, each where it first occurred. *)
Lemma parseTokens_Includes (os : OS) (path dir : string) :
  forall d p log p' log',
    parseTokens os path dir d p log = (Ok p', log') ->
    Includes p' =
    fold_left addOnce (filter (fileExists os) (referenced os dir d))
              (Includes p).
Proof.
  induction d as [e|next IH|local body afterBody IHa inside IHi];
    intros p log p' log'; simpl.
  - now intros [= <- _].
  - apply IH.
  - destruct (recognized local); [|apply IHi].
    destruct body as [text|e]; [|discriminate].
    destruct (element os path dir local text p log) as [[q|e] l] eqn:E;
      [|discriminate].
    intros H. rewrite (IHa _ _ _ _ H), filter_app, fold_left_app. f_equal.
    destruct (isInclude local) eqn:K.
    + rewrite element_include in E by exact K. injection E as <- _.
      rewrite includeGrammar_Includes. simpl.
      now destruct (fileExists os (upgradeFile os (filepath_Join [dir; text]))).
    + now destruct (element_other _ _ _ _ _ _ _ _ _ K E) as (-> & _ & _).
Qed.

(** The grammars of the project that is returned are those of its
    includes that the header scanner classifies, in the same order. *)
Lemma parseTokens_Grammars (os : OS) (path dir : string) :
  forall d p log p' log',
    Grammars p = classified os (Includes p) ->
    parseTokens os path dir d p log = (Ok p', log') ->
    Grammars p' = classified os (Includes p').
Proof.
  apply (parseTokens_invariant os path dir
           (fun p => Grammars p = classified os (Includes p))).
  apply element_keeps.
  - intros p log file. apply includeGrammar_Grammars.
  - intros p p' -> ->. trivial.
Qed.

Lemma classified_In (os : OS) (files : list string) (g : Grammar) :
  In g (classified os files) <->
  In (Filename g) files /\ ParseG4 os (Filename g) = Ok g.
Proof.
  unfold classified. rewrite in_flat_map. split.
  - intros (f & Hf & Hg). destruct (ParseG4 os f) as [g'|e] eqn:P;
      [|destruct Hg].
    destruct Hg as [<-|[]]. rewrite (ParseG4_Filename _ _ _ P). now split.
  - intros [Hf P]. exists (Filename g). split; [exact Hf|].
    rewrite P. now left.
Qed.

Lemma classified_other_file (os : OS) (files : list string) (f : string) :
  ~ In f files ->
  filter (fun g => Filename g =? f) (classified os files) = [].
Proof.
  induction files as [|x files IH]; intros Hn; [reflexivity|].
  change (classified os (x :: files))
    with ((match ParseG4 os x with Ok g => [g] | Err _ => [] end)
            ++ classified os files).
  rewrite filter_app, IH by (intros H; apply Hn; now right).
  rewrite app_nil_r. destruct (ParseG4 os x) as [g|e] eqn:P; [|reflexivity].
  simpl. rewrite (ParseG4_Filename _ _ _ P).
  destruct (String.eqb_spec x f) as [->|_]; [|reflexivity].
  exfalso. apply Hn. now left.
Qed.

(** A file contributes at most one grammar. *)
Lemma classified_at_most_one (os : OS) (files : list string) (f : string) :
  NoDup files ->
  List.length (filter (fun g => Filename g =? f) (classified os files)) <= 1.
Proof.
  induction 1 as [|x files Hx Hnd IH]; [simpl; lia|].
  change (classified os (x :: files))
    with ((match ParseG4 os x with Ok g => [g] | Err _ => [] end)
            ++ classified os files).
  rewrite filter_app, length_app.
  destruct (String.eqb_spec x f) as [->|N].
  - rewrite (classified_other_file os files f Hx).
    destruct (ParseG4 os f); simpl; [destruct (_ =? _)|]; simpl; lia.
  - destruct (ParseG4 os x) as [g|e] eqn:P; [|simpl; lia].
    simpl. rewrite (ParseG4_Filename _ _ _ P).
    destruct (String.eqb_spec x f); [contradiction | simpl; lia].
Qed.

(** The project [ParsePom] returns. *)
Lemma ParsePom_project (os : OS) (path : string) (file : File) (p : Project)
  (log : list logEntry) :
  Open os path = LibOk file ->
  ParsePom os path = (Ok p, log) ->
  Includes p =
    firstOccurrences
      (filter (fileExists os)
              (referenced os (filepath_Dir path) (tokens file)))
  /\ Grammars p = classified os (Includes p)
  /\ NoDup (Includes p).
Proof.
  unfold ParsePom. intros -> H.
  pose proof (parseTokens_Includes _ _ _ _ _ _ _ _ H) as HI.
  split; [exact HI|]. split.
  - now apply (parseTokens_Grammars os path (filepath_Dir path) (tokens file)
                  (newProject path) [] p log).
  - rewrite HI. apply fold_addOnce_NoDup. constructor.
Qed.

(** *** Replacing every occurrence *)

Lemma HasPrefix_length (s pre : string) :
  HasPrefix s pre = true -> String.length pre <= String.length s.
Proof.
  unfold HasPrefix. revert s. induction pre as [|c pre IH]; intros s.
  - simpl. lia.
  - destruct s as [|d s]; simpl; [discriminate|].
    destruct (ascii_dec c d); [|discriminate].
    intros H. apply IH in H. lia.
Qed.

Lemma replaceFrom_skip (old new : string) (n : Z) (s : string) :
  forall k, k <= String.length s ->
            replaceFrom old new n k s = replaceFrom old new n 0 (sliceFrom k s).
Proof.
  induction s as [|c s IH]; intros k Hk.
  - now destruct k.
  - destruct k as [|k]; [reflexivity|].
    cbn [replaceFrom sliceFrom]. apply IH. simpl in Hk. lia.
Qed.

(** Below zero the count never runs out. *)
Lemma replaceFrom_unlimited (old new : string) (s : string) :
  forall n m k, (n < 0)%Z -> (m < 0)%Z ->
                replaceFrom old new n k s = replaceFrom old new m k s.
Proof.
  induction s as [|c s IH]; intros n m k Hn Hm; [reflexivity|].
  cbn [replaceFrom]. destruct k as [|k]; [|now apply IH].
  destruct (Z.eqb_spec n 0); [lia|]. destruct (Z.eqb_spec m 0); [lia|].
  destruct (HasPrefix (String c s) old).
  - f_equal. apply IH; lia.
  - f_equal. now apply IH.
Qed.

(** With the count [-1], [Replace] goes through the string from the left:
    where [old] starts it writes [new] and goes on behind the occurrence,
    elsewhere it keeps the byte and goes on with the next. *)
Lemma Replace_every_hit (s old new : string) :
  old <> "" -> old <> new -> HasPrefix s old = true ->
  Replace s old new (-1) =
  new +++ Replace (sliceFrom (String.length old) s) old new (-1).
Proof.
  intros Ho Hn Hp. unfold Replace.
  rewrite (proj2 (String.eqb_neq _ _) Hn), (proj2 (String.eqb_neq _ _) Ho).
  cbn [Z.eqb orb].
  pose proof (HasPrefix_length _ _ Hp) as Hlen.
  destruct old as [|o old]; [contradiction|].
  destruct s as [|c s]; [discriminate|].
  cbn [replaceFrom Z.eqb]. rewrite Hp. f_equal.
  cbn [String.length sliceFrom] in *.
  replace (S (String.length old) - 1) with (String.length old) by lia.
  rewrite (replaceFrom_unlimited _ _ _ (-1 - 1) (-1)) by lia.
  apply replaceFrom_skip. lia.
Qed.

Lemma Replace_every_miss (c : ascii) (s old new : string) :
  HasPrefix (String c s) old = false ->
  Replace (String c s) old new (-1) = String c (Replace s old new (-1)).
Proof.
  intros Hp. unfold Replace.
  destruct ((old =? new) || (-1 =? 0)%Z || (old =? "")); [reflexivity|].
  cbn [replaceFrom Z.eqb]. now rewrite Hp.
Qed.

(** *** Errors of the token stream and of the element bodies *)


(** The only error an element case makes itself is that of [Glob]. *)
Lemma element_Err (os : OS) (path dir local text : string) (p : Project)
  (log log' : list logEntry) (e : error) :
  element os path dir local text p log = (Err e, log') ->
  exists pat le, Glob os pat = LibErr le /\ e = FromLibrary le.
Proof.
  unfold element.
  destruct (local =? "artifactId"); [discriminate|].
  destruct (isInclude local);
    [destruct (includeGrammar _ _ _ _ _); discriminate|].
  destruct (local =? "grammarName"); [discriminate|].
  destruct (local =? "entryPoint"); [discriminate|].
  destruct (local =? "exampleFiles").
  - destruct (Glob os (filepath_Join [dir; text; "*"])) as [l|le] eqn:G;
      [discriminate|].
    intros [= <- _]. now exists (filepath_Join [dir; text; "*"]), le.
  - destruct (local =? "caseInsensitiveType"); discriminate.
Qed.

Lemma parseTokens_Err (os : OS) (path dir : string) :
  forall d p log e log',
    parseTokens os path dir d p log = (Err e, log') ->
    bodiesDecode d = false
    \/ exists pat le, Glob os pat = LibErr le /\ e = FromLibrary le.
Proof.
  induction d as [e'|next IH|local body afterBody IHa inside IHi];
    intros p log e log'; simpl.
  - discriminate.
  - apply IH.
  - destruct (recognized local); [|apply IHi].
    destruct body as [text|e']; [|now left].
    destruct (element os path dir local text p log) as [[q|e'] l] eqn:E.
    + apply IHa.
    + intros [= <- _]. right. exact (element_Err _ _ _ _ _ _ _ _ _ E).
Qed.


(** *** What does not depend on the grammar files *)

Lemma sameFieldsButGrammars_refl (p : Project) : sameFieldsButGrammars p p.
Proof. now repeat split. Qed.

Lemma sameFieldsButGrammars_sym (p q : Project) :
  sameFieldsButGrammars p q -> sameFieldsButGrammars q p.
Proof. unfold sameFieldsButGrammars. intuition congruence. Qed.

Lemma sameFieldsButGrammars_trans (p q r : Project) :
  sameFieldsButGrammars p q -> sameFieldsButGrammars q r ->
  sameFieldsButGrammars p r.
Proof. unfold sameFieldsButGrammars. intuition congruence. Qed.

Lemma element_sameButGrammars (os os' : OS) (path dir local text : string)
  (p p' : Project) (log log' : list logEntry) :
  (local = "exampleFiles" ->
   Glob os' (filepath_Join [dir; text; "*"]) =
   Glob os (filepath_Join [dir; text; "*"])) ->
  sameFieldsButGrammars p p' ->
  sameButGrammars (fst (element os path dir local text p log))
                  (fst (element os' path dir local text p' log')).
Proof.
  intros HG H. destruct (isInclude local) eqn:K.
  - rewrite !element_include by exact K. simpl.
    eapply sameFieldsButGrammars_trans; [|apply includeGrammar_others].
    eapply sameFieldsButGrammars_trans; [|exact H].
    apply sameFieldsButGrammars_sym, includeGrammar_others.
  - unfold element. rewrite K.
    destruct H as (H1 & H2 & H3 & H4 & H5 & H6 & H7).
    destruct (String.eqb_spec local "exampleFiles") as [E|N].
    + rewrite (HG E). subst local. cbn.
      destruct (Glob os (filepath_Join [dir; text; "*"])); simpl;
        unfold sameFieldsButGrammars; simpl; auto 10.
    + repeat match goal with
             | |- context [if ?b then _ else _] => destruct b
             end;
        simpl; unfold sameFieldsButGrammars; simpl; auto 10.
Qed.

(** Two trees that agree on the descriptor, and on the matches of the
    patterns its [exampleFiles] elements make, give the same result up to
    [Includes] and [Grammars]. *)
Lemma parseTokens_sameButGrammars (os os' : OS) (path dir : string) :
  forall d,
    (forall text,
        In text (textsOf "exampleFiles" (elementsRead d)) ->
        Glob os' (filepath_Join [dir; text; "*"]) =
        Glob os (filepath_Join [dir; text; "*"])) ->
    forall p p' log log',
      sameFieldsButGrammars p p' ->
      sameButGrammars (fst (parseTokens os path dir d p log))
                      (fst (parseTokens os' path dir d p' log')).
Proof.
  induction d as [e|next IH|local body afterBody IHa inside IHi];
    intros HG p p' log log' H; simpl in *.
  - exact H.
  - now apply IH.
  - destruct (recognized local); [|now apply IHi].
    destruct body as [text|e]; [|reflexivity].
    rewrite textsOf_cons in HG.
    assert (E : sameButGrammars
                  (fst (element os path dir local text p log))
                  (fst (element os' path dir local text p' log'))).
    { apply element_sameButGrammars; [|exact H].
      intros ->. apply HG. now left. }
    assert (HG' : forall t,
               In t (textsOf "exampleFiles" (elementsRead afterBody)) ->
               Glob os' (filepath_Join [dir; t; "*"]) =
               Glob os (filepath_Join [dir; t; "*"])).
    { intros t Ht. apply HG.
      destruct (local =? "exampleFiles"); [now right | exact Ht]. }
    destruct (element os path dir local text p log) as [[q|e] l];
      destruct (element os' path dir local text p' log') as [[q'|e'] l'];
      simpl in E; try contradiction.
    + now apply IHa.
    + exact E.
Qed.

(** ** The claims about the descriptor reader *)

(** C4, as amended: the variant the reader probes for a reference is the
    resolved path with every occurrence of ".g4" (not only the first one)
    replaced by ".GoTarget.g4"; when [fileExists] finds the variant, it is
    used in place of the literal path, otherwise the literal path is used,
    and it is that file that goes into [Includes]. *)
Theorem include_probes_variant_of_every_extension :
  forall (os : OS) (path : string) (p : Project) (log : list logEntry)
         (file : string),
    let variant := Replace file ".g4" ".GoTarget.g4" (-1) in
    (fileExists os variant = true -> upgradeFile os file = variant)
    /\ (fileExists os variant = false -> upgradeFile os file = file)
    /\ (forall s, HasPrefix s ".g4" = true ->
          Replace s ".g4" ".GoTarget.g4" (-1) =
          ".GoTarget.g4" +++ Replace (sliceFrom 3 s) ".g4" ".GoTarget.g4" (-1))
    /\ (forall c s, HasPrefix (String c s) ".g4" = false ->
          Replace (String c s) ".g4" ".GoTarget.g4" (-1) =
          String c (Replace s ".g4" ".GoTarget.g4" (-1)))
    /\ Replace "" ".g4" ".GoTarget.g4" (-1) = ""
    /\ Includes (fst (includeGrammar os path p log file)) =
       (if fileExists os (upgradeFile os file)
        then addOnce (Includes p) (upgradeFile os file)
        else Includes p).
Proof.
  intros os path p log file variant. unfold upgradeFile at 1 2. fold variant.
  split; [now intros ->|]. split; [now intros ->|].
  split; [|split; [|split]].
  - intros s Hs.
    exact (Replace_every_hit s ".g4" ".GoTarget.g4"
             ltac:(discriminate) ltac:(discriminate) Hs).
  - intros c s. apply Replace_every_miss.
  - reflexivity.
  - apply includeGrammar_Includes.
Qed.

(** C8: the [Includes] of the project [ParsePom] returns has no duplicate
    entry: it consists of the referenced files that are there, each at the
    place of its first occurrence; a reference to a file that is already in
    [Includes] changes neither the project nor the log; and no file
    contributes more than one grammar. *)
Theorem Includes_has_no_duplicates :
  forall (os : OS) (path : string) (file : File) (p : Project)
         (log : list logEntry),
    Open os path = LibOk file ->
    ParsePom os path = (Ok p, log) ->
    NoDup (Includes p)
    /\ Includes p =
       firstOccurrences
         (filter (fileExists os)
                 (referenced os (filepath_Dir path) (tokens file)))
    /\ (forall f,
          List.length (filter (fun g => Filename g =? f) (Grammars p)) <= 1)
    /\ (forall (q : Project) (l : list logEntry) (ref : string),
          fileExists os (upgradeFile os ref) = true ->
          In (upgradeFile os ref) (Includes q) ->
          includeGrammar os path q l ref = (q, l))
    /\ (forall (q : Project) (l : list logEntry) (ref : string),
          exists more,
            Includes (fst (includeGrammar os path q l ref)) =
            Includes q ++ more).
Proof.
  intros os path file p log Hopen H.
  destruct (ParsePom_project os path file p log Hopen H) as (HI & HG & HN).
  split; [exact HN|]. split; [exact HI|]. split; [|split].
  - intros f. rewrite HG. now apply classified_at_most_one.
  - intros q l ref Hex Hin.
    destruct (includeGrammar_cases os path q l ref)
      as [(Ex & E)|[(Ex & Hi & E)|[(Ex & Hn & e & P & E)|(Ex & Hn & g & P & E)]]];
      try congruence; contradiction.
  - intros q l ref.
    destruct (includeGrammar_cases os path q l ref)
      as [(Ex & E)|[(Ex & Hi & E)|[(Ex & Hn & e & P & E)|(Ex & Hn & g & P & E)]]];
      rewrite E; simpl;
      solve [exists []; now rewrite app_nil_r | now eexists].
Qed.

(** C9, as amended: the failure of a reference never makes [ParsePom]
    fail.  Whether it returns a project or an error, and every field of the
    project but [Includes] and [Grammars], does not depend on which grammar
    files are there nor on what they hold: two trees with the same
    descriptor, and the same matches for the patterns of its [exampleFiles]
    elements, differ in nothing else.  In the project that is returned, a
    referenced file for which [os.Stat] fails with a not-exist error is
    dropped: it appears neither in [Includes] nor as the file of a grammar.
    Every other referenced path is in [Includes], also when its header scan
    fails, and also when [os.Stat] fails on it for another reason and it
    cannot be opened.  [Grammars] holds exactly the grammars the header
    scanner returns for the files of [Includes], so a file whose scan fails
    has none.  An error of [ParsePom] is one of the descriptor: of an element
    body or of [Glob].  A file reported as not existing and a failed scan
    each add one line to the log. *)
Theorem reference_failures_do_not_abort :
  forall (os : OS) (path : string) (file : File),
    Open os path = LibOk file ->
    (forall os',
        Open os' path = LibOk file ->
        (forall text,
            In text (textsOf "exampleFiles" (elementsRead (tokens file))) ->
            Glob os' (filepath_Join [filepath_Dir path; text; "*"]) =
            Glob os (filepath_Join [filepath_Dir path; text; "*"])) ->
        sameButGrammars (fst (ParsePom os path)) (fst (ParsePom os' path)))
    /\ (forall p log,
          ParsePom os path = (Ok p, log) ->
          (forall f, Stat os f = Some ErrNotExist ->
                     ~ In f (Includes p)
                     /\ forall g, In g (Grammars p) -> Filename g <> f)
          /\ (forall f,
                In f (referenced os (filepath_Dir path) (tokens file)) ->
                Stat os f <> Some ErrNotExist -> In f (Includes p))
          /\ (forall f e,
                In f (referenced os (filepath_Dir path) (tokens file)) ->
                Stat os f <> Some ErrNotExist ->
                Open os f = LibErr e ->
                In f (Includes p)
                /\ forall g, In g (Grammars p) -> Filename g <> f)
          /\ (forall g, In g (Grammars p) <->
                        In (Filename g) (Includes p)
                        /\ ParseG4 os (Filename g) = Ok g)
          /\ (forall f e, ParseG4 os f = Err e ->
                          forall g, In g (Grammars p) -> Filename g <> f))
    /\ (forall e log,
          ParsePom os path = (Err e, log) ->
          bodiesDecode (tokens file) = false
          \/ exists pat le, Glob os pat = LibErr le /\ e = FromLibrary le)
    /\ (forall (q : Project) (l : list logEntry) (ref : string),
          Stat os (upgradeFile os ref) = Some ErrNotExist ->
          includeGrammar os path q l ref =
          (q, l ++ [LogMissingGrammar (upgradeFile os ref) path]))
    /\ (forall (q : Project) (l : list logEntry) (ref : string) (e : error),
          Stat os (upgradeFile os ref) <> Some ErrNotExist ->
          ~ In (upgradeFile os ref) (Includes q) ->
          ParseG4 os (upgradeFile os ref) = Err e ->
          includeGrammar os path q l ref =
          (setIncludes q (Includes q ++ [upgradeFile os ref]),
           l ++ [LogFailedToParse (upgradeFile os ref) e])).
Proof.
  intros os path file Hopen. split; [|split; [|split; [|split]]].
  - intros os' Hopen' HG. unfold ParsePom. rewrite Hopen, Hopen'.
    apply parseTokens_sameButGrammars; [exact HG|].
    apply sameFieldsButGrammars_refl.
  - intros p log H.
    destruct (ParsePom_project os path file p log Hopen H) as (HI & HG & HN).
    assert (Hex : forall f, In f (Includes p) -> fileExists os f = true).
    { intros f. rewrite HI. unfold firstOccurrences.
      rewrite fold_addOnce_In, filter_In. intros [[]|[_ Hf]]. exact Hf. }
    assert (Hgr : forall g, In g (Grammars p) <->
                            In (Filename g) (Includes p)
                            /\ ParseG4 os (Filename g) = Ok g).
    { intros g. rewrite HG at 1. apply classified_In. }
    assert (Hin : forall f,
               In f (referenced os (filepath_Dir path) (tokens file)) ->
               Stat os f <> Some ErrNotExist -> In f (Includes p)).
    { intros f Hf Hthere. apply fileExists_true in Hthere.
      rewrite HI. unfold firstOccurrences.
      rewrite fold_addOnce_In, filter_In. right. now split. }
    assert (Herr : forall f e, ParseG4 os f = Err e ->
                               forall g, In g (Grammars p) -> Filename g <> f).
    { intros f e Hf g Hg <-. apply Hgr in Hg. destruct Hg as [_ Hg].
      congruence. }
    split; [|split; [|split; [|split]]].
    + intros f Hf. apply fileExists_false in Hf. split.
      * intros Hi. apply Hex in Hi. congruence.
      * intros g Hg <-. apply Hgr in Hg. destruct Hg as [Hi _].
        apply Hex in Hi. congruence.
    + exact Hin.
    + intros f e Hf Hthere Ho. split; [now apply Hin|].
      apply (Herr f (FromLibrary e)). unfold ParseG4. now rewrite Ho.
    + exact Hgr.
    + exact Herr.
  - intros e log. unfold ParsePom. rewrite Hopen. apply parseTokens_Err.
  - intros q l ref Hex. apply fileExists_false in Hex.
    destruct (includeGrammar_cases os path q l ref)
      as [(Ex & E)|[(Ex & Hi & E)|[(Ex & Hn & e & P & E)|(Ex & Hn & g & P & E)]]];
      congruence.
  - intros q l ref e Hex Hnot He. apply fileExists_true in Hex.
    destruct (includeGrammar_cases os path q l ref)
      as [(Ex & E)|[(Ex & Hi & E)|[(Ex & Hn & e' & P & E)|(Ex & Hn & g & P & E)]]];
      try congruence; contradiction.
Qed.


(** ** Further properties of the name deriver *)

Lemma find_first_match {A : Type} (f : A -> bool) (l : list A) (x : A) :
  find f l = Some x <->
  exists before after,
    l = before ++ x :: after /\ f x = true
    /\ (forall y, In y before -> f y = false).
Proof.
  induction l as [|a l IH]; simpl.
  - split; [discriminate|]. intros (b & r & H & _). now destruct b.
  - destruct (f a) eqn:Fa.
    + split.
      * intros [= <-]. exists [], l. repeat split; [exact Fa | intros y []].
      * intros (b & r & H & Fx & Hb). destruct b as [|b0 b].
        -- now injection H as ->.
        -- injection H as <- _. rewrite (Hb a (or_introl eq_refl)) in Fa.
           discriminate.
    + rewrite IH. split.
      * intros (b & r & -> & Fx & Hb). exists (a :: b), r.
        repeat split; [exact Fx|]. intros y [<-|Hy]; [exact Fa | now apply Hb].
      * intros (b & r & H & Fx & Hb). destruct b as [|b0 b].
        -- injection H as <- _. congruence.
        -- injection H as <- ->. exists b, r. repeat split; [exact Fx|].
           intros y Hy. apply Hb. now right.
Qed.

(** X1: [findGrammarOfType] returns the first grammar of the type asked for:
    it returns [g] exactly when [g] has the type and stands in [Grammars]
    behind grammars of other types only; it returns nothing exactly when no
    grammar has the type. *)
Theorem findGrammarOfType_first_of_type :
  forall (p : Project) (t : string),
    (forall g,
        findGrammarOfType p t = Some g <->
        exists before after,
          Grammars p = before ++ g :: after /\ Type_ g = t
          /\ (forall h, In h before -> Type_ h <> t))
    /\ (findGrammarOfType p t = None <->
        forall g, In g (Grammars p) -> Type_ g <> t).
Proof.
  intros p t. split; [|apply findGrammarOfType_None].
  intros g. unfold findGrammarOfType. rewrite find_first_match. split.
  - intros (b & r & H & Hg & Hb). exists b, r. repeat split.
    + exact H.
    + now apply String.eqb_eq.
    + intros h Hh. apply String.eqb_neq. now apply Hb.
  - intros (b & r & H & Hg & Hb). exists b, r. repeat split.
    + exact H.
    + now apply String.eqb_eq.
    + intros h Hh. apply String.eqb_neq. now apply Hb.
Qed.

Lemma find_type_Some_or_None (p : Project) (t : string) :
  (exists g, findGrammarOfType p t = Some g /\ In g (Grammars p) /\ Type_ g = t)
  \/ (findGrammarOfType p t = None
      /\ forall g, In g (Grammars p) -> Type_ g <> t).
Proof.
  destruct (findGrammarOfType p t) as [g|] eqn:E.
  - left. exists g. unfold findGrammarOfType in E.
    destruct (find_some _ _ E) as [Hin Ht]. apply String.eqb_eq in Ht.
    now repeat split.
  - right. split; [reflexivity|]. now apply findGrammarOfType_None.
Qed.

(** X2: [grammarLexerName] and [LexerName] panic exactly when the project
    has neither a LEXER nor a COMBINED grammar, and then with the message
    that the project's file "does not contain a lexer"; in every other
    project both return a name. *)
Theorem lexer_names_panic_exactly_without_lexer :
  forall p : Project,
    let without :=
      forall g, In g (Grammars p) ->
                Type_ g <> "LEXER" /\ Type_ g <> "COMBINED" in
    (without <-> grammarLexerName p = Panics (NoLexer (FileName p)))
    /\ (without <-> LexerName p = Panics (NoLexer (FileName p)))
    /\ (~ without <-> returnsToCaller (grammarLexerName p))
    /\ (~ without <-> returnsToCaller (LexerName p)).
Proof.
  intros p without. unfold LexerName, grammarLexerName, returnsToCaller.
  assert (R : forall (a : string) (N : ~ without),
             (without <-> Returns a = Panics (NoLexer (FileName p)))
             /\ (~ without <-> exists b, Returns a = Returns b)).
  { intros a N. split; split.
    - intros H. exfalso. exact (N H).
    - discriminate.
    - intros _. now exists a.
    - intros _. exact N. }
  destruct (find_type_Some_or_None p "LEXER") as [(g & -> & Hin & Ht)|[-> HL]].
  - assert (N : ~ without).
    { intros H. destruct (H g Hin) as [H1 _]. contradiction. }
    destruct (R (TrimSuffix (Name g) "Lexer") N) as [R1 R2].
    destruct (R (TrimSuffix (Name g) "Lexer" +++ "Lexer") N) as [R3 R4].
    tauto.
  - destruct (find_type_Some_or_None p "COMBINED")
      as [(g & -> & Hin & Ht)|[-> HC]].
    + assert (N : ~ without).
      { intros H. destruct (H g Hin) as [_ H2]. contradiction. }
      destruct (R (Name g) N) as [R1 R2].
      destruct (R (Name g +++ "Lexer") N) as [R3 R4].
      tauto.
    + assert (W : without).
      { intros g Hg. split; [now apply HL | now apply HC]. }
      assert (P : ~ exists b : string,
                    @Panics string (NoLexer (FileName p)) = Returns b).
      { intros [b Hb]. discriminate. }
      tauto.
Qed.

(** X3: [ListenerName], [grammarParserName] and [ParserName] return a name
    exactly when the project has a PARSER or a COMBINED grammar: the three
    return or panic together. *)
Theorem parser_names_return_exactly_with_parser :
  forall p : Project,
    let some :=
      exists g, In g (Grammars p)
                /\ (Type_ g = "PARSER" \/ Type_ g = "COMBINED") in
    (some <-> returnsToCaller (ListenerName p))
    /\ (some <-> returnsToCaller (grammarParserName p))
    /\ (some <-> returnsToCaller (ParserName p)).
Proof.
  intros p some.
  unfold ParserName, ListenerName, grammarParserName, returnsToCaller.
  assert (R : forall a : string, exists b, Returns a = Returns b).
  { intros a. now exists a. }
  assert (P : ~ exists b : string,
                @Panics string (NoParser (FileName p)) = Returns b).
  { intros [b Hb]. discriminate. }
  destruct (find_type_Some_or_None p "PARSER") as [(g & -> & Hin & Ht)|[-> HP]].
  - assert (S : some) by (exists g; auto).
    pose proof (R (Name g +++ "Listener")).
    pose proof (R (TrimSuffix (Name g) "Parser")).
    pose proof (R (TrimSuffix (Name g) "Parser" +++ "Parser")).
    tauto.
  - destruct (find_type_Some_or_None p "COMBINED")
      as [(g & -> & Hin & Ht)|[-> HC]].
    + assert (S : some) by (exists g; auto).
      pose proof (R (Name g +++ "Listener")).
      pose proof (R (Name g)).
      pose proof (R (Name g +++ "Parser")).
      tauto.
    + assert (N : ~ some).
      { intros (g & Hg & [H|H]); [exact (HP g Hg H) | exact (HC g Hg H)]. }
      tauto.
Qed.

Lemma sliceTo_sliceFrom (k : nat) (s : string) :
  sliceTo k s +++ sliceFrom k s = s.
Proof.
  revert s. induction k as [|k IH]; intros s; [now destruct s|].
  destruct s as [|c s]; [reflexivity|]. simpl. now rewrite IH.
Qed.

(** Taking a suffix off and putting it back gives the string again. *)
Lemma TrimSuffix_restore (s suffix : string) :
  HasSuffix s suffix = true -> TrimSuffix s suffix +++ suffix = s.
Proof.
  intros H. unfold TrimSuffix. rewrite H. unfold HasSuffix in H.
  apply andb_true_iff in H. destruct H as [_ H]. apply String.eqb_eq in H.
  rewrite <- H at 2. apply sliceTo_sliceFrom.
Qed.

(** X4: the name of the parser is that of the first PARSER grammar, with
    "Parser" appended unless the name ends in it already; without a PARSER
    grammar it is the name of the first COMBINED grammar with "Parser"
    appended, whatever that name ends in.  [LexerName] does the same with
    LEXER and "Lexer".  So a PARSER grammar [n ++ "Parser"] and a COMBINED
    grammar [n] give the same parser name. *)
Theorem parser_and_lexer_names :
  forall (p : Project) (g : Grammar),
    (findGrammarOfType p "PARSER" = Some g ->
     (HasSuffix (Name g) "Parser" = true -> ParserName p = Returns (Name g))
     /\ (HasSuffix (Name g) "Parser" = false ->
         ParserName p = Returns (Name g +++ "Parser")))
    /\ (findGrammarOfType p "PARSER" = None ->
        findGrammarOfType p "COMBINED" = Some g ->
        ParserName p = Returns (Name g +++ "Parser"))
    /\ (findGrammarOfType p "LEXER" = Some g ->
        (HasSuffix (Name g) "Lexer" = true -> LexerName p = Returns (Name g))
        /\ (HasSuffix (Name g) "Lexer" = false ->
            LexerName p = Returns (Name g +++ "Lexer")))
    /\ (findGrammarOfType p "LEXER" = None ->
        findGrammarOfType p "COMBINED" = Some g ->
        LexerName p = Returns (Name g +++ "Lexer")).
Proof.
  intros p g. unfold ParserName, grammarParserName, LexerName, grammarLexerName.
  split; [|split; [|split]].
  - intros ->. split; intros E.
    + now rewrite TrimSuffix_restore.
    + now rewrite TrimSuffix_without.
  - now intros -> ->.
  - intros ->. split; intros E.
    + now rewrite TrimSuffix_restore.
    + now rewrite TrimSuffix_without.
  - now intros -> ->.
Qed.

(** ** Further properties of the generated file names *)

Lemma append_assoc (s t u : string) : (s +++ t) +++ u = s +++ t +++ u.
Proof. induction s as [|c s IH]; simpl; [reflexivity | now rewrite IH]. Qed.

Lemma Grammar_GeneratedFilenames_known (g : Grammar) :
  knownType (Type_ g) = true ->
  Grammar_GeneratedFilenames g = Returns (generatedNames g)
  /\ List.length (generatedNames g) =
     (if Type_ g =? "LEXER" then 1 else if Type_ g =? "PARSER" then 3 else 4).
Proof.
  unfold knownType, generatedNames, Grammar_GeneratedFilenames.
  destruct (Type_ g =? "LEXER"); [now intros _|].
  destruct (Type_ g =? "PARSER"); [now intros _|].
  destruct (Type_ g =? "COMBINED"); [now intros _ | discriminate].
Qed.

Lemma Grammar_GeneratedFilenames_unknown (g : Grammar) :
  knownType (Type_ g) = false ->
  Grammar_GeneratedFilenames g = Panics (UnknownGrammarType (Type_ g)).
Proof.
  unfold knownType, Grammar_GeneratedFilenames.
  destruct (Type_ g =? "LEXER"); [discriminate|].
  destruct (Type_ g =? "PARSER"); [discriminate|].
  destruct (Type_ g =? "COMBINED"); [discriminate | reflexivity].
Qed.

(** The loop over two lists of grammars, one after the other. *)
Lemma appendGenerated_app (gs gs' : list Grammar) :
  appendGenerated (gs ++ gs') [] =
  match appendGenerated gs [] with
  | Panics v => Panics v
  | Returns fs =>
      match appendGenerated gs' [] with
      | Panics v => Panics v
      | Returns fs' => Returns (fs ++ fs')
      end
  end.
Proof.
  induction gs as [|g gs IH]; simpl.
  - now destruct (appendGenerated gs' []).
  - destruct (Grammar_GeneratedFilenames g) as [fg|v]; [|reflexivity].
    rewrite (appendGenerated_files (gs ++ gs') fg), IH.
    rewrite (appendGenerated_files gs fg).
    destruct (appendGenerated gs []) as [fs|v]; [|reflexivity].
    destruct (appendGenerated gs' []) as [fs'|v]; [|reflexivity].
    now rewrite app_assoc.
Qed.

Lemma appendGenerated_known (gs : list Grammar) :
  (forall g, In g gs -> knownType (Type_ g) = true) ->
  appendGenerated gs [] = Returns (flat_map generatedNames gs).
Proof.
  induction gs as [|g gs IH]; intros H; [reflexivity|].
  change (g :: gs) with ([g] ++ gs). rewrite appendGenerated_app.
  rewrite IH by (intros h Hh; apply H; now right).
  cbn [appendGenerated app].
  destruct (Grammar_GeneratedFilenames_known g (H g (or_introl eq_refl)))
    as [-> _].
  reflexivity.
Qed.

Lemma appendGenerated_first_unknown (before after : list Grammar)
  (g : Grammar) :
  (forall h, In h before -> knownType (Type_ h) = true) ->
  knownType (Type_ g) = false ->
  appendGenerated (before ++ g :: after) [] =
  Panics (UnknownGrammarType (Type_ g)).
Proof.
  intros Hb Hg. rewrite appendGenerated_app, (appendGenerated_known before Hb).
  cbn [appendGenerated].
  now rewrite (Grammar_GeneratedFilenames_unknown g Hg).
Qed.

Lemma appendGenerated_Returns_known (gs : list Grammar) (files : list string) :
  appendGenerated gs [] = Returns files ->
  forall g, In g gs -> knownType (Type_ g) = true.
Proof.
  intros H g Hg. destruct (in_split _ _ Hg) as (before & after & ->).
  destruct (appendGenerated_split _ _ _ _ H) as (fb & fg & fa & _ & Hgen & _).
  destruct (knownType (Type_ g)) eqn:K; [reflexivity|].
  rewrite (Grammar_GeneratedFilenames_unknown g K) in Hgen. discriminate.
Qed.

(** X5: [Project.GeneratedFilenames] returns exactly when every grammar of
    the project has one of the types LEXER, PARSER, COMBINED; what it returns
    is then the names of the grammars one after the other, in the order of
    [Grammars]: one name for a LEXER, three for a PARSER, four for a COMBINED
    grammar. *)
Theorem Project_GeneratedFilenames_concatenates :
  forall p : Project,
    ((forall g, In g (Grammars p) -> knownType (Type_ g) = true) <->
     returnsToCaller (Project_GeneratedFilenames p))
    /\ (forall files,
          Project_GeneratedFilenames p = Returns files ->
          files = flat_map generatedNames (Grammars p)
          /\ List.length files =
             list_sum
               (map (fun g => if Type_ g =? "LEXER" then 1
                              else if Type_ g =? "PARSER" then 3 else 4)
                    (Grammars p))).
Proof.
  intros p. unfold Project_GeneratedFilenames, returnsToCaller. split.
  - split.
    + intros H. rewrite (appendGenerated_known _ H). now eexists.
    + intros [files H]. exact (appendGenerated_Returns_known _ _ H).
  - intros files H.
    pose proof (appendGenerated_Returns_known _ _ H) as K.
    rewrite (appendGenerated_known _ K) in H. injection H as <-.
    split; [reflexivity|].
    induction (Grammars p) as [|g gs IH]; [reflexivity|].
    cbn [flat_map map list_sum]. rewrite length_app.
    rewrite IH by (intros h Hh; apply K; now right).
    now destruct (Grammar_GeneratedFilenames_known g (K g (or_introl eq_refl)))
      as [_ ->].
Qed.

(** X6: when a grammar of the project has none of the three types,
    [Project.GeneratedFilenames] panics, and the "unknown grammar type" it
    reports is that of the first such grammar in [Grammars]; the grammars
    after it are not looked at. *)
Theorem Project_GeneratedFilenames_panics_at_first_unknown :
  forall (p : Project) (before after : list Grammar) (g : Grammar),
    Grammars p = before ++ g :: after ->
    (forall h, In h before -> knownType (Type_ h) = true) ->
    knownType (Type_ g) = false ->
    Project_GeneratedFilenames p = Panics (UnknownGrammarType (Type_ g))
    /\ Grammar_GeneratedFilenames g = Panics (UnknownGrammarType (Type_ g)).
Proof.
  intros p before after g Hp Hb Hg. unfold Project_GeneratedFilenames.
  rewrite Hp. split.
  - now apply appendGenerated_first_unknown.
  - now apply Grammar_GeneratedFilenames_unknown.
Qed.

(** X7: the names of a project whose grammars are those of [p1] followed by
    those of [p2] are the names of [p1] followed by the names of [p2]; it
    panics as [p1] does, or else as [p2] does. *)
Theorem Project_GeneratedFilenames_of_appended_grammars :
  forall p p1 p2 : Project,
    Grammars p = Grammars p1 ++ Grammars p2 ->
    Project_GeneratedFilenames p =
    match Project_GeneratedFilenames p1 with
    | Panics v => Panics v
    | Returns fs1 =>
        match Project_GeneratedFilenames p2 with
        | Panics v => Panics v
        | Returns fs2 => Returns (fs1 ++ fs2)
        end
    end.
Proof.
  intros p p1 p2 H. unfold Project_GeneratedFilenames. rewrite H.
  apply appendGenerated_app.
Qed.

Lemma noUpperCase_append (s t : string) :
  noUpperCase (s +++ t) = noUpperCase s && noUpperCase t.
Proof.
  induction s as [|c s IH]; simpl; [reflexivity|].
  now rewrite IH, andb_assoc.
Qed.

Lemma noUpperCase_lowerByte (c : ascii) :
  negb ((65 <=? N_of_ascii (lowerByte c))
        && (N_of_ascii (lowerByte c) <=? 90))%N = true.
Proof. destruct c as [[] [] [] [] [] [] [] []]; reflexivity. Qed.

Lemma isASCII_lowerByte (c : ascii) :
  (N_of_ascii c <? 128)%N = true -> (N_of_ascii (lowerByte c) <? 128)%N = true.
Proof. destruct c as [[] [] [] [] [] [] [] []]; intros H; exact H || reflexivity. Qed.

Lemma noUpperCase_mapBytes_lowerByte (s : string) :
  noUpperCase (mapBytes lowerByte s) = true.
Proof.
  induction s as [|c s IH]; simpl; [reflexivity|].
  now rewrite noUpperCase_lowerByte, IH.
Qed.

Lemma isASCII_mapBytes_lowerByte (s : string) :
  isASCII s = true -> isASCII (mapBytes lowerByte s) = true.
Proof.
  induction s as [|c s IH]; simpl; [reflexivity|].
  intros H. apply andb_true_iff in H. destruct H as [Hc Hs].
  now rewrite (isASCII_lowerByte c Hc), IH.
Qed.

Lemma isASCII_append (s t : string) :
  isASCII (s +++ t) = isASCII s && isASCII t.
Proof.
  induction s as [|c s IH]; simpl; [reflexivity|].
  now rewrite IH, andb_assoc.
Qed.

Lemma isASCII_sliceTo (k : nat) (s : string) :
  isASCII s = true -> isASCII (sliceTo k s) = true.
Proof.
  revert s. induction k as [|k IH]; intros s; [now destruct s|].
  destruct s as [|c s]; [reflexivity|]. simpl. intros H.
  apply andb_true_iff in H. destruct H as [Hc Hs]. now rewrite Hc, IH.
Qed.

Lemma isASCII_TrimSuffix (s suffix : string) :
  isASCII s = true -> isASCII (TrimSuffix s suffix) = true.
Proof.
  intros H. unfold TrimSuffix. destruct (HasSuffix s suffix); [|exact H].
  now apply isASCII_sliceTo.
Qed.

(** A generated name: the lower-cased stem, a tail, and ".go". *)
Lemma generated_name_shape (stem tail : string) :
  HasSuffix (ToLower stem +++ tail +++ ".go") ".go" = true
  /\ (isASCII stem = true -> isASCII tail = true -> noUpperCase tail = true ->
      isASCII (ToLower stem +++ tail +++ ".go") = true
      /\ noUpperCase (ToLower stem +++ tail +++ ".go") = true).
Proof.
  split.
  - rewrite <- append_assoc. apply HasSuffix_append.
  - intros Hs Ht Hu. unfold ToLower. rewrite Hs.
    rewrite !isASCII_append, !noUpperCase_append.
    rewrite (isASCII_mapBytes_lowerByte _ Hs), noUpperCase_mapBytes_lowerByte.
    now rewrite Ht, Hu.
Qed.

(** X8: every name [Grammar.GeneratedFilenames] returns ends in ".go"; and
    when the name of the grammar is ASCII, the generated names are ASCII and
    hold no upper-case letter. *)
Theorem generated_filenames_are_lower_case_go_files :
  forall (g : Grammar) (files : list string) (name : string),
    Grammar_GeneratedFilenames g = Returns files ->
    In name files ->
    HasSuffix name ".go" = true
    /\ (isASCII (Name g) = true ->
        isASCII name = true /\ noUpperCase name = true).
Proof.
  intros g files name. unfold Grammar_GeneratedFilenames.
  pose proof (isASCII_TrimSuffix (Name g) "Lexer") as AL.
  pose proof (isASCII_TrimSuffix (Name g) "Parser") as AP.
  destruct (Type_ g =? "LEXER"); [|destruct (Type_ g =? "PARSER");
    [|destruct (Type_ g =? "COMBINED"); [|discriminate]]];
    intros [= <-]; cbn [app In];
    intros H; repeat (destruct H as [<-|H]); try contradiction.
  - destruct (generated_name_shape (TrimSuffix (Name g) "Lexer") "_lexer")
      as [H1 H2]. split; [exact H1|]. intros A. now apply H2; auto.
  - destruct (generated_name_shape (Name g) "_base_listener") as [H1 H2].
    split; [exact H1|]. intros A. now apply H2.
  - destruct (generated_name_shape (Name g) "_listener") as [H1 H2].
    split; [exact H1|]. intros A. now apply H2.
  - destruct (generated_name_shape (TrimSuffix (Name g) "Parser") "_parser")
      as [H1 H2]. split; [exact H1|]. intros A. now apply H2; auto.
  - destruct (generated_name_shape (Name g) "_base_listener") as [H1 H2].
    split; [exact H1|]. intros A. now apply H2.
  - destruct (generated_name_shape (Name g) "_listener") as [H1 H2].
    split; [exact H1|]. intros A. now apply H2.
  - destruct (generated_name_shape (Name g) "_parser") as [H1 H2].
    split; [exact H1|]. intros A. now apply H2.
  - destruct (generated_name_shape (Name g) "_lexer") as [H1 H2].
    split; [exact H1|]. intros A. now apply H2.
Qed.

(** ** Further properties of the header scanner *)

Lemma HasPrefix_first_byte (line : string) (c : ascii) (r : string) :
  HasPrefix line (String c r) = true -> exists s, line = String c s.
Proof.
  unfold HasPrefix. destruct line as [|d s]; simpl; [discriminate|].
  destruct (ascii_dec c d) as [->|_]; [|discriminate]. intros _. now exists s.
Qed.

(** X9: a line starts with at most one of the three keywords, so the order
    in which [ParseG4] tries them decides nothing: the type is COMBINED
    exactly for a line that starts with "grammar", LEXER exactly for
    "lexer", PARSER exactly for "parser", and a line is passed over exactly
    when it starts with none of them. *)
Theorem header_keywords_exclude_each_other :
  forall line : string,
    (headerType line = "COMBINED" <-> HasPrefix line "grammar" = true)
    /\ (headerType line = "LEXER" <-> HasPrefix line "lexer" = true)
    /\ (headerType line = "PARSER" <-> HasPrefix line "parser" = true)
    /\ (headerType line = "" <->
        HasPrefix line "grammar" = false /\ HasPrefix line "lexer" = false
        /\ HasPrefix line "parser" = false).
Proof.
  intros line. unfold headerType.
  destruct (HasPrefix line "grammar") eqn:G;
    destruct (HasPrefix line "lexer") eqn:L;
    destruct (HasPrefix line "parser") eqn:P;
    try (destruct (HasPrefix_first_byte _ _ _ G) as [s1 E1]);
    try (destruct (HasPrefix_first_byte _ _ _ L) as [s2 E2]);
    try (destruct (HasPrefix_first_byte _ _ _ P) as [s3 E3]);
    subst; try discriminate;
    repeat split; intros; try discriminate; try reflexivity;
    repeat match goal with H : _ /\ _ |- _ => destruct H end;
    discriminate.
Qed.

Lemma spaceWidth_not_asciiSpace (c : ascii) (r : string) :
  spaceWidth (String c r) = 0 -> asciiSpace c = false.
Proof. unfold spaceWidth. now destruct (asciiSpace c). Qed.

Lemma consField_In (w t : string) (l : list string) :
  In t (consField w l) -> (t = w /\ w <> "") \/ In t l.
Proof.
  destruct w as [|c w]; simpl; [now right|].
  intros [<-|H]; [left; split; [reflexivity | discriminate] | now right].
Qed.

(** The bytes of the fields are bytes of the string, none of them white
    space, and no field but the one being read is empty. *)
Lemma fieldsFrom_tokens (s : string) :
  forall skip w l,
    fieldsFrom skip s = (w, l) ->
    (forall c, In c (list_ascii_of_string w) ->
               In c (list_ascii_of_string s) /\ asciiSpace c = false)
    /\ (forall t, In t l ->
          t <> ""
          /\ forall c, In c (list_ascii_of_string t) ->
                       In c (list_ascii_of_string s) /\ asciiSpace c = false).
Proof.
  induction s as [|b r IH]; intros skip w l; cbn [fieldsFrom].
  - intros [= <- <-]. split; [intros c [] | intros t []].
  - assert (Up : forall w' l',
               (forall c, In c (list_ascii_of_string w') ->
                          In c (list_ascii_of_string r) /\ asciiSpace c = false)
               /\ (forall t, In t l' ->
                     t <> ""
                     /\ forall c, In c (list_ascii_of_string t) ->
                                  In c (list_ascii_of_string r)
                                  /\ asciiSpace c = false) ->
               (forall c, In c (list_ascii_of_string w') ->
                          In c (list_ascii_of_string (String b r))
                          /\ asciiSpace c = false)
               /\ (forall t, In t l' ->
                     t <> ""
                     /\ forall c, In c (list_ascii_of_string t) ->
                                  In c (list_ascii_of_string (String b r))
                                  /\ asciiSpace c = false)).
    { intros w' l' [Hw Hl]. split.
      - intros c Hc. destruct (Hw c Hc). split; [now right | assumption].
      - intros t Ht. destruct (Hl t Ht) as [Hne Hc]. split; [exact Hne|].
        intros c Hin. destruct (Hc c Hin). split; [now right | assumption]. }
    destruct skip as [|k].
    + destruct (spaceWidth (String b r)) as [|k] eqn:W.
      * destruct (fieldsFrom 0 r) as [w' l'] eqn:F. intros [= <- <-].
        destruct (Up w' l' (IH _ _ _ F)) as [Hw Hl]. split; [|exact Hl].
        intros c [<-|Hc]; [|now apply Hw].
        split; [now left | exact (spaceWidth_not_asciiSpace _ _ W)].
      * destruct (fieldsFrom k r) as [w' l'] eqn:F. intros [= <- <-].
        destruct (Up w' l' (IH _ _ _ F)) as [Hw Hl]. split; [intros c []|].
        intros t Ht. destruct (consField_In _ _ _ Ht) as [[-> Hne]|Hin].
        -- split; [exact Hne | exact Hw].
        -- now apply Hl.
    + intros F. exact (Up w l (IH _ _ _ F)).
Qed.

Lemma Fields_tokens (s t : string) :
  In t (Fields s) ->
  t <> ""
  /\ forall c, In c (list_ascii_of_string t) ->
               In c (list_ascii_of_string s) /\ asciiSpace c = false.
Proof.
  unfold Fields. destruct (fieldsFrom 0 s) as [w l] eqn:F.
  destruct (fieldsFrom_tokens s 0 w l F) as [Hw Hl].
  intros Ht. destruct (consField_In _ _ _ Ht) as [[-> Hne]|Hin].
  - split; [exact Hne | exact Hw].
  - now apply Hl.
Qed.

(** Where [Index] finds the byte, and that it finds the first. *)
Lemma Index_byte_spec (c : ascii) (s : string) :
  (Index s (String c "") = (-1)%Z /\ ~ In c (list_ascii_of_string s))
  \/ ((0 <= Index s (String c ""))%Z
      /\ ~ In c (list_ascii_of_string
                   (sliceTo (Z.to_nat (Index s (String c ""))) s))).
Proof.
  induction s as [|d r IH].
  - left. split; [reflexivity | intros []].
  - cbn [Index].
    destruct (HasPrefix (String d r) (String c "")) eqn:E.
    + right. split; [lia | intros []].
    + assert (N : d <> c).
      { intros ->. now rewrite (proj2 (HasPrefix_byte c c r) eq_refl) in E. }
      destruct IH as [[-> Hn]|[Hpos Hn]].
      * left. split; [reflexivity|]. intros [H|H]; [exact (N H) | exact (Hn H)].
      * right. destruct (Z.ltb_spec (Index r (String c "")) 0); [lia|].
        split; [lia|].
        replace (Z.to_nat (Index r (String c "") + 1))
          with (S (Z.to_nat (Index r (String c "")))) by lia.
        cbn [sliceTo list_ascii_of_string].
        intros [Hd|Hd]; [exact (N Hd) | exact (Hn Hd)].
Qed.

Lemma cutAtSemicolon_bytes (line : string) :
  ~ In ";"%char (list_ascii_of_string (cutAtSemicolon line)).
Proof.
  unfold cutAtSemicolon.
  destruct (Index_byte_spec ";" line) as [[E Hn]|[Hpos Hn]].
  - change (String ";" "") with ";" in E. now rewrite E.
  - change (String ";" "") with ";" in *.
    now destruct (Z.leb_spec 0 (Index line ";")); [|lia].
Qed.

Lemma last_In_list (l : list string) (d : string) :
  l <> [] -> In (last l d) l.
Proof.
  induction l as [|x l IH]; [contradiction|]. intros _.
  destruct l as [|y l]; [now left|]. right. apply IH. discriminate.
Qed.

Lemma ParseG4_Ok_shape (os : OS) (path : string) (g : Grammar) :
  ParseG4 os path = Ok g ->
  Filename g = path
  /\ knownType (Type_ g) = true
  /\ Name g <> ""
  /\ ~ In ";"%char (list_ascii_of_string (Name g))
  /\ (forall c, In c (list_ascii_of_string (Name g)) -> asciiSpace c = false).
Proof.
  intros H. split; [exact (ParseG4_Filename os path g H)|].
  unfold ParseG4 in H. destruct (Open os path) as [f|e]; [|discriminate].
  destruct (scanLines path (lines f)) as [r|] eqn:E;
    [|destruct (scanErr f); discriminate].
  apply scanLines_Some in E.
  destruct E as (before & text & after & _ & _ & Ht & ->).
  rewrite parseHeader_eq in H. cbv zeta in H.
  set (line := TrimSpace text) in *.
  destruct (Nat.ltb_spec (List.length (Fields (cutAtSemicolon line))) 2)
    as [_|Hlen]; [discriminate|].
  injection H as <-. cbn [Name Type_].
  assert (Hin : In (last (Fields (cutAtSemicolon line)) "")
                   (Fields (cutAtSemicolon line))).
  { apply last_In_list. intros E. rewrite E in Hlen. simpl in Hlen. lia. }
  destruct (Fields_tokens _ _ Hin) as [Hne Hbytes].
  split; [|split; [exact Hne | split]].
  - unfold knownType.
    destruct (headerType_cases line)
      as [[_ ->]|[(_ & _ & ->)|[(_ & _ & _ & ->)|Hnone]]];
      try reflexivity.
    exfalso. apply Ht. apply Hnone.
  - intros Hs. apply (cutAtSemicolon_bytes line). now apply Hbytes.
  - intros c Hc. now apply Hbytes.
Qed.

(** X10: a grammar [ParseG4] returns carries the path it was read from, one
    of the types COMBINED, LEXER, PARSER, and a name that is not empty and
    holds no ";" and no ASCII white space. *)
Theorem ParseG4_grammar_is_well_formed :
  forall (os : OS) (path : string) (g : Grammar),
    ParseG4 os path = Ok g ->
    Filename g = path
    /\ knownType (Type_ g) = true
    /\ Name g <> ""
    /\ ~ In ";"%char (list_ascii_of_string (Name g))
    /\ (forall c, In c (list_ascii_of_string (Name g)) -> asciiSpace c = false).
Proof. exact ParseG4_Ok_shape. Qed.

(** X11: [ParseG4] returns an error of the library exactly in two cases:
    the file does not open, with the error of [os.Open]; or it opens, no
    line is a header line, and the scanner stopped on an error, with that
    error. *)
Theorem ParseG4_library_errors :
  forall (os : OS) (path : string) (e : liberror),
    ParseG4 os path = Err (FromLibrary e) <->
    Open os path = LibErr e
    \/ exists f,
         Open os path = LibOk f
         /\ (forall l, In l (lines f) -> headerType (TrimSpace l) = "")
         /\ scanErr f = Some e.
Proof.
  intros os path e. unfold ParseG4. split.
  - destruct (Open os path) as [f|e'] eqn:O; [|intros [= ->]; now left].
    destruct (scanLines path (lines f)) as [r|] eqn:E.
    + apply scanLines_Some in E.
      destruct E as (before & text & after & _ & _ & _ & ->).
      rewrite parseHeader_eq. cbv zeta.
      destruct (List.length (Fields (cutAtSemicolon (TrimSpace text))) <? 2)%nat;
        discriminate.
    + pose proof (proj1 (scanLines_None _ _) E) as Hno.
      destruct (scanErr f) as [e'|] eqn:S; [|discriminate].
      intros [= ->]. right. now exists f.
  - intros [->|(f & -> & Hno & Hs)]; [reflexivity|].
    now rewrite (proj2 (scanLines_None path (lines f)) Hno), Hs.
Qed.

(** X12: [contains] tells whether the needle is an entry of the haystack;
    over two lists one after the other it is the disjunction of the two. *)
Theorem contains_is_membership :
  forall (haystack more : list string) (needle : string),
    (contains haystack needle = true <-> In needle haystack)
    /\ (contains haystack needle = false <-> ~ In needle haystack)
    /\ contains (haystack ++ more) needle =
       contains haystack needle || contains more needle.
Proof.
  intros haystack more needle.
  split; [apply contains_In|]. split; [apply contains_not_In|].
  induction haystack as [|straw rest IH]; simpl; [reflexivity|].
  now destruct (straw =? needle).
Qed.

(** ** Further properties of the descriptor reader *)

(** What one element does to the fields that are no lists of grammars. *)
Lemma element_fields (os : OS) (path dir local text : string)
  (p q : Project) (log l : list logEntry) :
  element os path dir local text p log = (Ok q, l) ->
  FileName q = FileName p
  /\ LongName q = (if local =? "grammarName" then text else LongName p)
  /\ EntryPoint q = (if local =? "entryPoint" then text else EntryPoint p)
  /\ CaseInsensitiveType q =
     (if local =? "caseInsensitiveType" then text else CaseInsensitiveType p)
  /\ FoundAntlr4MavenPlugin q =
     ((local =? "artifactId") && (text =? "antlr4-maven-plugin")
      || FoundAntlr4MavenPlugin p)
  /\ (if local =? "exampleFiles"
      then Glob os (filepath_Join [dir; text; "*"]) = LibOk (Examples q)
           /\ ExampleRoot q = Repeat "../" (Count dir "/")
      else Examples q = Examples p /\ ExampleRoot q = ExampleRoot p).
Proof.
  destruct (isInclude local) eqn:K.
  - rewrite element_include by exact K. intros [= <- _].
    destruct (includeGrammar_others os path p log (filepath_Join [dir; text]))
      as (H1 & H2 & H3 & H4 & H5 & H6 & H7).
    unfold isInclude in K. apply orb_true_iff in K.
    destruct K as [K|K]; apply String.eqb_eq in K; subst local; cbn;
      repeat split; congruence.
  - unfold element. rewrite K.
    destruct (String.eqb_spec local "artifactId") as [->|N1].
    { intros [= <- _]. cbn. destruct (text =? "antlr4-maven-plugin");
        now repeat split. }
    destruct (String.eqb_spec local "grammarName") as [->|N2].
    { intros [= <- _]. cbn. now repeat split. }
    destruct (String.eqb_spec local "entryPoint") as [->|N3].
    { intros [= <- _]. cbn. now repeat split. }
    destruct (String.eqb_spec local "exampleFiles") as [->|N4].
    { cbn. destruct (Glob os (filepath_Join [dir; text; "*"])) as [ex|e];
        [|discriminate].
      intros [= <- _]. cbn. now repeat split. }
    destruct (String.eqb_spec local "caseInsensitiveType") as [->|N5].
    { intros [= <- _]. cbn. now repeat split. }
    intros [= <- _]. cbn. now repeat split.
Qed.

Lemma last_cons_default (x d : string) (l : list string) :
  last (x :: l) d = last l x.
Proof.
  revert x d. induction l as [|y l IH]; intros x d; [reflexivity|].
  change (last (x :: y :: l) d) with (last (y :: l) d).
  now rewrite (IH y d), (IH y x).
Qed.

(** A field that every element named [name] sets to its text, and no other
    element touches, ends as the text of the last such element. *)
Lemma parseTokens_last_wins (os : OS) (path dir name : string)
  (field : Project -> string) :
  (forall local text p log q l,
      element os path dir local text p log = (Ok q, l) ->
      field q = if local =? name then text else field p) ->
  forall d p log p' log',
    parseTokens os path dir d p log = (Ok p', log') ->
    field p' = last (textsOf name (elementsRead d)) (field p).
Proof.
  intros Hstep.
  induction d as [e|next IH|local body afterBody IHa inside IHi];
    intros p log p' log'; simpl.
  - now intros [= <- _].
  - apply IH.
  - destruct (recognized local); [|apply IHi].
    destruct body as [text|e]; [|discriminate].
    destruct (element os path dir local text p log) as [[q|e] l] eqn:E;
      [|discriminate].
    intros H. rewrite (IHa _ _ _ _ H), (Hstep _ _ _ _ _ _ E), textsOf_cons.
    destruct (local =? name); [now rewrite last_cons_default | reflexivity].
Qed.

Lemma parseTokens_plugin (os : OS) (path dir : string) :
  forall d p log p' log',
    parseTokens os path dir d p log = (Ok p', log') ->
    FoundAntlr4MavenPlugin p' =
    existsb (fun t => t =? "antlr4-maven-plugin")
            (textsOf "artifactId" (elementsRead d))
    || FoundAntlr4MavenPlugin p.
Proof.
  induction d as [e|next IH|local body afterBody IHa inside IHi];
    intros p log p' log'; simpl.
  - now intros [= <- _].
  - apply IH.
  - destruct (recognized local); [|apply IHi].
    destruct body as [text|e]; [|discriminate].
    destruct (element os path dir local text p log) as [[q|e] l] eqn:E;
      [|discriminate].
    intros H. rewrite (IHa _ _ _ _ H), textsOf_cons.
    destruct (element_fields _ _ _ _ _ _ _ _ _ E) as (_ & _ & _ & _ & -> & _).
    destruct (local =? "artifactId"); simpl;
      [destruct (text =? "antlr4-maven-plugin")|];
      simpl; now rewrite ?orb_true_r.
Qed.

Lemma parseTokens_examples (os : OS) (path dir : string) :
  forall d p log p' log',
    parseTokens os path dir d p log = (Ok p', log') ->
    match textsOf "exampleFiles" (elementsRead d) with
    | [] => Examples p' = Examples p /\ ExampleRoot p' = ExampleRoot p
    | t :: ts =>
        Glob os (filepath_Join [dir; last ts t; "*"]) = LibOk (Examples p')
        /\ ExampleRoot p' = Repeat "../" (Count dir "/")
    end.
Proof.
  induction d as [e|next IH|local body afterBody IHa inside IHi];
    intros p log p' log'; simpl.
  - now intros [= <- _].
  - apply IH.
  - destruct (recognized local); [|apply IHi].
    destruct body as [text|e]; [|discriminate].
    destruct (element os path dir local text p log) as [[q|e] l] eqn:E;
      [|discriminate].
    intros H. pose proof (IHa _ _ _ _ H) as IH. rewrite textsOf_cons.
    destruct (element_fields _ _ _ _ _ _ _ _ _ E) as (_ & _ & _ & _ & _ & Hex).
    destruct (local =? "exampleFiles").
    + destruct (textsOf "exampleFiles" (elementsRead afterBody)) as [|t ts].
      * destruct IH as [-> ->]. exact Hex.
      * rewrite last_cons_default. exact IH.
    + destruct (textsOf "exampleFiles" (elementsRead afterBody)) as [|t ts].
      * destruct IH as [-> ->]. exact Hex.
      * exact IH.
Qed.

(** X13: in the project [ParsePom] returns, [FileName] is the path of the
    descriptor; [LongName], [EntryPoint] and [CaseInsensitiveType] are the
    texts of the last [grammarName], [entryPoint] and [caseInsensitiveType]
    element read (empty without one); and [FoundAntlr4MavenPlugin] is set
    exactly when some [artifactId] element read has the text
    "antlr4-maven-plugin". *)
Theorem ParsePom_fields_take_the_last_element :
  forall (os : OS) (path : string) (file : File) (p : Project)
         (log : list logEntry),
    Open os path = LibOk file ->
    ParsePom os path = (Ok p, log) ->
    let els := elementsRead (tokens file) in
    FileName p = path
    /\ LongName p = last (textsOf "grammarName" els) ""
    /\ EntryPoint p = last (textsOf "entryPoint" els) ""
    /\ CaseInsensitiveType p = last (textsOf "caseInsensitiveType" els) ""
    /\ (FoundAntlr4MavenPlugin p = true <->
        In "antlr4-maven-plugin" (textsOf "artifactId" els)).
Proof.
  intros os path file p log Hopen H els. unfold ParsePom in H.
  rewrite Hopen in H.
  split; [|split; [|split; [|split]]].
  - apply (parseTokens_invariant os path (filepath_Dir path)
             (fun q => FileName q = path) ) with (3 := H); [|reflexivity].
    intros local text q l q' l' Hq E.
    destruct (element_fields _ _ _ _ _ _ _ _ _ E) as (-> & _). exact Hq.
  - apply (parseTokens_last_wins os path (filepath_Dir path)
             "grammarName" LongName) with (2 := H).
    intros local text q l q' l' E.
    now destruct (element_fields _ _ _ _ _ _ _ _ _ E) as (_ & -> & _).
  - apply (parseTokens_last_wins os path (filepath_Dir path)
             "entryPoint" EntryPoint) with (2 := H).
    intros local text q l q' l' E.
    now destruct (element_fields _ _ _ _ _ _ _ _ _ E) as (_ & _ & -> & _).
  - apply (parseTokens_last_wins os path (filepath_Dir path)
             "caseInsensitiveType" CaseInsensitiveType) with (2 := H).
    intros local text q l q' l' E.
    now destruct (element_fields _ _ _ _ _ _ _ _ _ E) as (_ & _ & _ & -> & _).
  - rewrite (parseTokens_plugin _ _ _ _ _ _ _ _ H). cbn [FoundAntlr4MavenPlugin
      newProject]. rewrite orb_false_r, existsb_exists. fold els. split.
    + intros (t & Ht & E). apply String.eqb_eq in E. now subst t.
    + intros Hin. exists "antlr4-maven-plugin". now split.
Qed.

Lemma length_Repeat (s : string) (n : nat) :
  String.length (Repeat s n) = n * String.length s.
Proof.
  induction n as [|n IH]; [reflexivity|].
  cbn [Repeat]. rewrite length_append, IH. simpl. lia.
Qed.

(** X14: without an [exampleFiles] element, [Examples] and [ExampleRoot]
    of the project [ParsePom] returns are empty; otherwise [Examples] is
    what [filepath.Glob] gives for the directory of the last such element
    joined with "*", and [ExampleRoot] is "../" once for each "/" in the
    directory of the descriptor. *)
Theorem ParsePom_examples_of_last_element :
  forall (os : OS) (path : string) (file : File) (p : Project)
         (log : list logEntry),
    Open os path = LibOk file ->
    ParsePom os path = (Ok p, log) ->
    let dir := filepath_Dir path in
    let texts := textsOf "exampleFiles" (elementsRead (tokens file)) in
    (texts = [] -> Examples p = [] /\ ExampleRoot p = "")
    /\ (texts <> [] ->
        Glob os (filepath_Join [dir; last texts ""; "*"]) = LibOk (Examples p)
        /\ ExampleRoot p = Repeat "../" (Count dir "/")
        /\ String.length (ExampleRoot p) = 3 * Count dir "/").
Proof.
  intros os path file p log Hopen H dir texts. unfold ParsePom in H.
  rewrite Hopen in H. pose proof (parseTokens_examples _ _ _ _ _ _ _ _ H) as E.
  fold texts in E. fold dir in E. destruct texts as [|t ts].
  - split; [intros _; exact E | intros N; contradiction].
  - split; [discriminate|]. intros _. rewrite last_cons_default.
    destruct E as [E1 E2]. split; [exact E1|]. split; [exact E2|].
    rewrite E2, length_Repeat. simpl. lia.
Qed.

(** *** The log *)

(** A property of the project and the log that every element keeps holds of
    the project and the log the reader returns. *)
Lemma parseTokens_state_invariant (os : OS) (path dir : string)
  (J : Project -> list logEntry -> Prop) :
  (forall local text p log q l,
      J p log -> element os path dir local text p log = (Ok q, l) -> J q l) ->
  forall d p log p' log',
    J p log -> parseTokens os path dir d p log = (Ok p', log') -> J p' log'.
Proof.
  intros Hstep.
  induction d as [e|next IH|local body afterBody IHa inside IHi];
    intros p log p' log' Hp; simpl.
  - now intros [= <- <-].
  - apply IH, Hp.
  - destruct (recognized local); [|apply IHi, Hp].
    destruct body as [text|e]; [|discriminate].
    destruct (element os path dir local text p log) as [[q|e] l] eqn:E;
      [|discriminate].
    apply IHa. exact (Hstep _ _ _ _ _ _ Hp E).
Qed.

Lemma includeGrammar_logAccounts (os : OS) (path : string) (p : Project)
  (log : list logEntry) (file : string) :
  logAccounts os path p log ->
  logAccounts os path (fst (includeGrammar os path p log file))
                      (snd (includeGrammar os path p log file)).
Proof.
  intros (HF & HM & HL). unfold logAccounts.
  destruct (includeGrammar_cases os path p log file)
    as [(Ex & E)|[(Ex & Hin & E)|[(Ex & Hn & e & P & E)|(Ex & Hn & g & P & E)]]];
    rewrite E; cbn [fst snd Includes Grammars setIncludes setGrammars].
  - split; [|split].
    + intros f e. rewrite in_app_iff, <- HF. split; [|now left].
      intros [H|[H|[]]]; [exact H | discriminate].
    + intros f pth. rewrite in_app_iff.
      intros [H|[H|[]]]; [now apply HM|]. injection H as <- <-. now split.
    + rewrite filter_app, length_app. simpl. lia.
  - now split.
  - split; [|split].
    + intros f e'. rewrite !in_app_iff, HF. simpl. split.
      * intros [[H1 H2]|[H|[]]]; [split; [now left | exact H2]|].
        injection H as <- <-. split; [right; now left | exact P].
      * intros [[H|[<-|[]]] H2]; [left; now split|].
        right; left. f_equal. congruence.
    + intros f pth. rewrite in_app_iff.
      intros [H|[H|[]]]; [now apply HM | discriminate].
    + rewrite filter_app, !length_app. simpl. lia.
  - split; [|split].
    + intros f e'. rewrite in_app_iff, HF. simpl. split.
      * intros [H1 H2]. split; [now left | exact H2].
      * intros [[H|[<-|[]]] H2]; [now split | congruence].
    + exact HM.
    + rewrite !length_app. simpl. lia.
Qed.

Lemma parseTokens_logAccounts (os : OS) (path dir : string) :
  forall d p log p' log',
    logAccounts os path p log ->
    parseTokens os path dir d p log = (Ok p', log') ->
    logAccounts os path p' log'.
Proof.
  apply parseTokens_state_invariant.
  intros local text p log q l J E. destruct (isInclude local) eqn:K.
  - rewrite element_include in E by exact K. injection E as <- <-.
    now apply includeGrammar_logAccounts.
  - destruct (element_other _ _ _ _ _ _ _ _ _ K E) as (Hi & Hg & ->).
    unfold logAccounts in *. now rewrite Hi, Hg.
Qed.

(** The log only grows. *)
Lemma includeGrammar_log_grows (os : OS) (path : string) (p : Project)
  (log : list logEntry) (file : string) :
  exists more, snd (includeGrammar os path p log file) = log ++ more.
Proof.
  destruct (includeGrammar_cases os path p log file)
    as [(Ex & E)|[(Ex & Hin & E)|[(Ex & Hn & e & P & E)|(Ex & Hn & g & P & E)]]];
    rewrite E; simpl;
    solve [exists []; now rewrite app_nil_r | now eexists].
Qed.

Lemma parseTokens_log_grows (os : OS) (path dir : string) :
  forall d p log p' log',
    parseTokens os path dir d p log = (Ok p', log') ->
    exists more, log' = log ++ more.
Proof.
  induction d as [e|next IH|local body afterBody IHa inside IHi];
    intros p log p' log'; simpl.
  - intros [= _ <-]. exists []. now rewrite app_nil_r.
  - apply IH.
  - destruct (recognized local); [|apply IHi].
    destruct body as [text|e]; [|discriminate].
    destruct (element os path dir local text p log) as [[q|e] l] eqn:E;
      [|discriminate].
    intros H. destruct (IHa _ _ _ _ H) as [more ->].
    destruct (isInclude local) eqn:K.
    + rewrite element_include in E by exact K. injection E as _ <-.
      destruct (includeGrammar_log_grows os path p log
                  (filepath_Join [dir; text])) as [m ->].
      exists (m ++ more). now rewrite app_assoc.
    + destruct (element_other _ _ _ _ _ _ _ _ _ K E) as (_ & _ & ->).
      now exists more.
Qed.

(** Every reference to a path that [fileExists] denies is logged. *)
Lemma parseTokens_logs_missing (os : OS) (path dir : string) :
  forall d p log p' log' f,
    parseTokens os path dir d p log = (Ok p', log') ->
    In f (referenced os dir d) ->
    fileExists os f = false ->
    In (LogMissingGrammar f path) log'.
Proof.
  induction d as [e|next IH|local body afterBody IHa inside IHi];
    intros p log p' log' f; simpl.
  - intros _ [].
  - apply IH.
  - destruct (recognized local); [|apply IHi].
    destruct body as [text|e]; [|discriminate].
    destruct (element os path dir local text p log) as [[q|e] l] eqn:E;
      [|discriminate].
    intros H Hin Hf. apply in_app_iff in Hin. destruct Hin as [Hin|Hin].
    + destruct (isInclude local) eqn:K; [|destruct Hin].
      destruct Hin as [<-|[]].
      rewrite element_include in E by exact K. injection E as _ <-.
      destruct (parseTokens_log_grows _ _ _ _ _ _ _ _ H) as [more ->].
      apply in_app_iff. left.
      destruct (includeGrammar_cases os path p log (filepath_Join [dir; text]))
        as [(Ex & E)|[(Ex & _ & E)|[(Ex & _ & e & _ & E)|(Ex & _ & g & _ & E)]]];
        try congruence.
      rewrite E. simpl. apply in_app_iff. right. now left.
    + exact (IHa _ _ _ _ _ H Hin Hf).
Qed.

(** X15: the log of a successful [ParsePom] accounts for the includes: a
    failed scan is logged for exactly the files of [Includes] whose header
    scan fails, with the error of the scan; a missing grammar is logged for
    every referenced path on which [os.Stat] fails with a not-exist error,
    and only for such paths; a referenced path on which [os.Stat] does not
    fail so, and which cannot be opened, is logged as a failed scan with the
    error of [os.Open]; and [Includes] has as many entries as there are
    grammars and logged failures together. *)
Theorem ParsePom_log_accounts_for_includes :
  forall (os : OS) (path : string) (file : File) (p : Project)
         (log : list logEntry),
    Open os path = LibOk file ->
    ParsePom os path = (Ok p, log) ->
    (forall f e, In (LogFailedToParse f e) log <->
                 In f (Includes p) /\ ParseG4 os f = Err e)
    /\ (forall f pth, In (LogMissingGrammar f pth) log ->
                      pth = path /\ Stat os f = Some ErrNotExist)
    /\ (forall f,
          In f (referenced os (filepath_Dir path) (tokens file)) ->
          Stat os f = Some ErrNotExist ->
          In (LogMissingGrammar f path) log)
    /\ (forall f e,
          In f (referenced os (filepath_Dir path) (tokens file)) ->
          Stat os f <> Some ErrNotExist ->
          Open os f = LibErr e ->
          In (LogFailedToParse f (FromLibrary e)) log
          /\ ~ In (LogMissingGrammar f path) log)
    /\ List.length (Includes p) =
       List.length (Grammars p) + List.length (filter isFailedToParse log)
    /\ List.length (Grammars p) <= List.length (Includes p).
Proof.
  intros os path file p log Hopen H.
  destruct (ParsePom_project os path file p log Hopen H) as (HI & _ & _).
  unfold ParsePom in H. rewrite Hopen in H.
  assert (J : logAccounts os path p log).
  { apply (parseTokens_logAccounts _ _ _ _ _ _ _ _) with (2 := H).
    split; [|split].
    - intros f e. split; [intros [] | intros [[] _]].
    - intros f pth [].
    - reflexivity. }
  destruct J as (HF & HM & HL).
  split; [exact HF|]. split; [|split; [|split; [|split; [exact HL | lia]]]].
  - intros f pth Hin. destruct (HM f pth Hin) as [-> Hf].
    split; [reflexivity | now apply fileExists_false].
  - intros f Hin Hf. apply fileExists_false in Hf.
    exact (parseTokens_logs_missing _ _ _ _ _ _ _ _ _ H Hin Hf).
  - intros f e Hin Hthere Ho. split.
    + apply HF. split.
      * rewrite HI. unfold firstOccurrences.
        rewrite fold_addOnce_In, filter_In. right.
        split; [exact Hin | now apply fileExists_true].
      * unfold ParseG4. now rewrite Ho.
    + intros Hm. destruct (HM f path Hm) as [_ Hf].
      apply fileExists_false in Hf. contradiction.
Qed.

(** X16: the grammars of a project [ParsePom] returns are all of a type that
    [GeneratedFilenames] knows, have a name, and come from a file of
    [Includes]: for such a project [Project.GeneratedFilenames] never
    panics, and returns between one and four names for each grammar. *)
Theorem ParsePom_project_has_generated_filenames :
  forall (os : OS) (path : string) (p : Project) (log : list logEntry),
    ParsePom os path = (Ok p, log) ->
    (forall g, In g (Grammars p) ->
               knownType (Type_ g) = true /\ Name g <> ""
               /\ In (Filename g) (Includes p))
    /\ Project_GeneratedFilenames p =
       Returns (flat_map generatedNames (Grammars p))
    /\ List.length (Grammars p)
       <= List.length (flat_map generatedNames (Grammars p))
       <= 4 * List.length (Grammars p).
Proof.
  intros os path p log H.
  destruct (Open os path) as [file|e] eqn:Hopen;
    [|unfold ParsePom in H; rewrite Hopen in H; discriminate].
  destruct (ParsePom_project os path file p log Hopen H) as (_ & HG & _).
  assert (K : forall g, In g (Grammars p) ->
                        knownType (Type_ g) = true /\ Name g <> ""
                        /\ In (Filename g) (Includes p)).
  { intros g Hg. rewrite HG in Hg. apply classified_In in Hg.
    destruct Hg as [Hin P].
    destruct (ParseG4_Ok_shape os _ g P) as (_ & Hk & Hn & _). now repeat split. }
  split; [exact K|]. split.
  - unfold Project_GeneratedFilenames. apply appendGenerated_known.
    intros g Hg. now apply K.
  - assert (K' : forall g, In g (Grammars p) -> knownType (Type_ g) = true).
    { intros g Hg. now apply K. }
    clear - K'. induction (Grammars p) as [|g gs IH]; [simpl; lia|].
    cbn [flat_map]. rewrite length_app. cbn [List.length].
    destruct (Grammar_GeneratedFilenames_known g (K' g (or_introl eq_refl)))
      as [_ ->].
    assert (IH' := IH (fun h Hh => K' h (or_intror Hh))).
    destruct (Type_ g =? "LEXER"); [lia|].
    destruct (Type_ g =? "PARSER"); lia.
Qed.

(** *** References without the extension, and repeated references *)

Lemma Index_lower_bound (s substr : string) : (-1 <= Index s substr)%Z.
Proof.
  induction s as [|c s IH]; cbn [Index].
  - destruct (HasPrefix "" substr); lia.
  - destruct (HasPrefix (String c s) substr); [lia|].
    destruct (Z.ltb_spec (Index s substr) 0); lia.
Qed.

Lemma replaceFrom_absent (old new : string) (n : Z) (s : string) :
  Index s old = (-1)%Z -> replaceFrom old new n 0 s = s.
Proof.
  induction s as [|c s IH]; [reflexivity|]. cbn [Index replaceFrom].
  destruct (HasPrefix (String c s) old); [discriminate|].
  pose proof (Index_lower_bound s old) as B.
  destruct (Z.ltb_spec (Index s old) 0) as [L|L]; [|lia].
  intros _. destruct (n =? 0)%Z; [reflexivity|].
  f_equal. apply IH. lia.
Qed.

(** X17: a reference in whose path ".g4" does not occur has no variant:
    the path is probed and used as it is, whatever files are there. *)
Theorem reference_without_extension_is_used_as_it_is :
  forall (os : OS) (file : string),
    Index file ".g4" = (-1)%Z ->
    Replace file ".g4" ".GoTarget.g4" (-1) = file
    /\ upgradeFile os file = file.
Proof.
  intros os file H.
  assert (E : Replace file ".g4" ".GoTarget.g4" (-1) = file).
  { unfold Replace. cbn [String.eqb Ascii.eqb Bool.eqb Z.eqb orb andb].
    now apply replaceFrom_absent. }
  split; [exact E|]. unfold upgradeFile. rewrite E.
  now destruct (fileExists os file).
Qed.

(** X18: a second reference to a path on which [os.Stat] does not fail
    with a not-exist error (a file that is there, or a path on which
    [os.Stat] fails for another reason) does nothing, wherever the first one
    put it: the include is idempotent; a reference to a path on which
    [os.Stat] fails with a not-exist error leaves the project as it is and
    logs the missing grammar, each time. *)
Theorem repeated_reference_changes_nothing :
  forall (os : OS) (path : string) (p : Project) (log : list logEntry)
         (ref : string),
    let once := includeGrammar os path p log ref in
    (Stat os (upgradeFile os ref) <> Some ErrNotExist ->
     includeGrammar os path (fst once) (snd once) ref = once
     /\ In (upgradeFile os ref) (Includes (fst once)))
    /\ (Stat os (upgradeFile os ref) = Some ErrNotExist ->
        once = (p, log ++ [LogMissingGrammar (upgradeFile os ref) path])
        /\ includeGrammar os path (fst once) (snd once) ref =
           (p, (log ++ [LogMissingGrammar (upgradeFile os ref) path])
                 ++ [LogMissingGrammar (upgradeFile os ref) path])).
Proof.
  intros os path p log ref once. split; intros Hex.
  - apply fileExists_true in Hex.
    assert (Hin : In (upgradeFile os ref) (Includes (fst once))).
    { subst once.
      destruct (includeGrammar_cases os path p log ref)
        as [(Ex & E)|[(Ex & Hin & E)|[(Ex & Hn & e & P & E)|(Ex & Hn & g & P & E)]]];
        try congruence; rewrite E; simpl; try assumption;
        apply in_app_iff; right; now left. }
    split; [|exact Hin].
    destruct (includeGrammar_cases os path (fst once) (snd once) ref)
      as [(Ex & E)|[(Ex & _ & E)|[(Ex & Hn & _)|(Ex & Hn & _)]]];
      try congruence; try contradiction.
    rewrite E. now destruct once.
  - apply fileExists_false in Hex.
    assert (E1 : once = (p, log ++ [LogMissingGrammar (upgradeFile os ref) path])).
    { subst once.
      destruct (includeGrammar_cases os path p log ref)
        as [(Ex & E)|[(Ex & _)|[(Ex & _)|(Ex & _)]]]; congruence. }
    split; [exact E1|]. rewrite E1. cbn [fst snd].
    destruct (includeGrammar_cases os path p
                (log ++ [LogMissingGrammar (upgradeFile os ref) path]) ref)
      as [(Ex & E)|[(Ex & _)|[(Ex & _)|(Ex & _)]]]; congruence.
Qed.

Lemma parseTokens_nothing_read (os : OS) (path dir : string) :
  forall d p log,
    elementsRead d = [] -> bodiesDecode d = true ->
    parseTokens os path dir d p log = (Ok p, log).
Proof.
  induction d as [e|next IH|local body afterBody IHa inside IHi];
    intros p log; simpl.
  - reflexivity.
  - apply IH.
  - destruct (recognized local); [|apply IHi].
    destruct body as [text|e]; discriminate.
Qed.

(** X19: when the reader meets no element that has a case, [ParsePom]
    returns the project with nothing but [FileName] set: no includes, no
    grammars, no names, the plugin not found; and it logs nothing. *)
Theorem ParsePom_of_descriptor_without_known_elements :
  forall (os : OS) (path : string) (file : File),
    Open os path = LibOk file ->
    elementsRead (tokens file) = [] ->
    bodiesDecode (tokens file) = true ->
    ParsePom os path = (Ok (newProject path), [])
    /\ Includes (newProject path) = []
    /\ Grammars (newProject path) = []
    /\ FoundAntlr4MavenPlugin (newProject path) = false.
Proof.
  intros os path file Hopen He Hb. unfold ParsePom. rewrite Hopen.
  split; [now apply parseTokens_nothing_read | now repeat split].
Qed.

End Package.

(** * The claims at the sample inputs *)

Lemma split_form_shares_parser_and_lexer_files_witness :
  Grammars fooSplit =
    [ {| Name := "FooParser"; Filename := "FooParser.g4"; Type_ := "PARSER" |};
      {| Name := "FooLexer"; Filename := "FooLexer.g4"; Type_ := "LEXER" |} ]
  /\ Grammars fooCombined =
    [ {| Name := "Foo"; Filename := "Foo.g4"; Type_ := "COMBINED" |} ]
  /\ Project_GeneratedFilenames sampleLower fooSplit =
     Returns ["fooparser_base_listener.go"; "fooparser_listener.go";
              "foo_parser.go"; "foo_lexer.go"]
  /\ Project_GeneratedFilenames sampleLower fooCombined =
     Returns ["foo_base_listener.go"; "foo_listener.go";
              "foo_parser.go"; "foo_lexer.go"].
Proof.
  split; [reflexivity|]. split; [reflexivity|].
  apply (split_form_shares_parser_and_lexer_files sampleLower
           fooSplit fooCombined "FooParser.g4" "FooLexer.g4" "Foo.g4");
    reflexivity.
Defined.

(** Against C1 as stated: the split form and the combined form do not give
    the same four names, whatever the lower-casing outside ASCII is. *)
Lemma split_form_differs_from_combined :
  ~ (exists lower,
        Project_GeneratedFilenames lower fooSplit =
        Project_GeneratedFilenames lower fooCombined).
Proof. intros [lower H]. cbv in H. discriminate H. Qed.

Lemma combined_Foo_filenames_witness :
  Grammars fooCombined =
    [ {| Name := "Foo"; Filename := "Foo.g4"; Type_ := "COMBINED" |} ]
  /\ Project_GeneratedFilenames sampleLower fooCombined =
     Returns ["foo_base_listener.go"; "foo_listener.go";
              "foo_parser.go"; "foo_lexer.go"].
Proof.
  split; [reflexivity|].
  apply (combined_Foo_filenames sampleLower fooCombined "Foo.g4").
  reflexivity.
Defined.

(** Against C2 as stated: the names do not come without ".go". *)
Lemma combined_Foo_filenames_have_extension :
  ~ (exists lower,
        Project_GeneratedFilenames lower fooCombined =
        Returns ["foo_base_listener"; "foo_listener";
                 "foo_parser"; "foo_lexer"]).
Proof. intros [lower H]. cbv in H. discriminate H. Qed.

Lemma lexer_filename_drops_Lexer_suffix_witness :
  Type_ (grammarNamed "FooLexer" "LEXER") = "LEXER"
  /\ Grammar_GeneratedFilenames sampleLower (grammarNamed "FooLexer" "LEXER") =
     Returns ["foo_lexer.go"]
  /\ exists fb fa,
       appendGenerated sampleLower [grammarNamed "FooParser" "PARSER"] [] =
         Returns fb
       /\ appendGenerated sampleLower [] [] = Returns fa
       /\ ["fooparser_base_listener.go"; "fooparser_listener.go";
           "foo_parser.go"; "foo_lexer.go"] =
          fb ++ ["foo_lexer.go"] ++ fa.
Proof.
  split; [reflexivity|].
  destruct (lexer_filename_drops_Lexer_suffix sampleLower
              (grammarNamed "FooLexer" "LEXER") eq_refl)
    as (H1 & H2 & _ & H4).
  split; [exact (H2 "Foo" eq_refl)|].
  exact (H4 fooSplit [grammarNamed "FooParser" "PARSER"] []
            ["fooparser_base_listener.go"; "fooparser_listener.go";
             "foo_parser.go"; "foo_lexer.go"] eq_refl eq_refl).
Defined.

(** Against C3 as stated: the name of the lexer file of "FooLexer" is not
    the whole lower-cased name followed by "_lexer". *)
Lemma lexer_filename_is_not_full_name :
  ~ (exists lower,
        Grammar_GeneratedFilenames lower (grammarNamed "FooLexer" "LEXER") =
        Returns [ToLower lower (Name (grammarNamed "FooLexer" "LEXER"))
                 +++ "_lexer"]).
Proof. intros [lower H]. cbv in H. discriminate H. Qed.

Lemma no_parser_grammar_panics_witness :
  noParserGrammar fooLexerOnly
  /\ ListenerName fooLexerOnly = Panics (NoParser "pom.xml")
  /\ grammarParserName fooLexerOnly = Panics (NoParser "pom.xml").
Proof.
  assert (H : noParserGrammar fooLexerOnly).
  { intros g [<-|[]]. split; discriminate. }
  split; [exact H|].
  destruct (no_parser_grammar_panics fooLexerOnly H) as (H1 & H2 & _).
  split; [exact H1 | exact H2].
Defined.

(** Against C7 as stated: with only a LEXER grammar, neither call comes
    back to its caller with a result. *)
Lemma no_parser_grammar_does_not_return :
  ~ returnsToCaller (ListenerName fooLexerOnly)
  /\ ~ returnsToCaller (grammarParserName fooLexerOnly).
Proof. split; intros [a H]; discriminate H. Qed.


Lemma ParseG4_failures_witness :
  ParseG4 sampleOS "g/Broken.g4" = Err (ErrGrammarName "grammar ")
  /\ ParseG4 sampleOS "g/Notes.g4" = Err ErrNoFields.
Proof.
  split.
  - destruct (ParseG4_failures sampleOS "g/Broken.g4") as (H & _).
    apply (H "grammar ").
    exists (textFile ["grammar ;"]), [], "grammar ;", [].
    repeat split; solve [reflexivity | intros l [] | discriminate | simpl; lia].
  - destruct (ParseG4_failures sampleOS "g/Notes.g4") as (_ & H & _).
    apply H. exists (textFile ["// nothing here yet"]).
    repeat split. intros l [<-|[]]. reflexivity.
Defined.

Lemma include_probes_variant_of_every_extension_witness :
  fileExists twoExtensionsOS
    (Replace "src.g4/Foo.g4" ".g4" ".GoTarget.g4" (-1)) = true
  /\ upgradeFile twoExtensionsOS "src.g4/Foo.g4" =
     "src.GoTarget.g4/Foo.GoTarget.g4".
Proof.
  split; [reflexivity|].
  destruct (include_probes_variant_of_every_extension twoExtensionsOS
              "pom.xml" (newProject "pom.xml") [] "src.g4/Foo.g4")
    as (H & _).
  exact (H eq_refl).
Defined.

(** Against C4 as stated: where the extension occurs twice in the path,
    the variant that is probed and used is not the path with its first
    occurrence replaced. *)
Lemma variant_is_not_of_first_occurrence_only :
  upgradeFile twoExtensionsOS "src.g4/Foo.g4" <>
  upgradeFirstOccurrence twoExtensionsOS "src.g4/Foo.g4".
Proof. discriminate. Qed.

Lemma Includes_has_no_duplicates_witness :
  Open sampleOS "g/pom.xml" = LibOk sampleDescriptor
  /\ ParsePom sampleDir sampleJoin sampleOS "g/pom.xml" =
     (Ok sampleProject, sampleLog)
  /\ NoDup (Includes sampleProject)
  /\ Includes sampleProject =
     firstOccurrences
       ["g/Foo.GoTarget.g4"; "g/Foo.GoTarget.g4"; "g/Notes.g4"].
Proof.
  split; [reflexivity|]. split; [reflexivity|].
  destruct (Includes_has_no_duplicates sampleDir sampleJoin sampleOS
              "g/pom.xml" sampleDescriptor sampleProject sampleLog
              eq_refl eq_refl) as (H1 & H2 & _).
  split; [exact H1 | exact H2].
Defined.

Lemma reference_failures_do_not_abort_witness :
  Open sampleOS "g/pom.xml" = LibOk sampleDescriptor
  /\ sameButGrammars
       (fst (ParsePom sampleDir sampleJoin sampleOS "g/pom.xml"))
       (fst (ParsePom sampleDir sampleJoin bareOS "g/pom.xml"))
  /\ Stat sampleOS "g/Missing.g4" = Some ErrNotExist
  /\ ~ In "g/Missing.g4" (Includes sampleProject)
  /\ Stat sampleOS "g/Notes.g4" <> Some ErrNotExist
  /\ In "g/Notes.g4" (Includes sampleProject)
  /\ (forall g, In g (Grammars sampleProject) -> Filename g <> "g/Notes.g4").
Proof.
  assert (There : Stat sampleOS "g/Notes.g4" <> Some ErrNotExist)
    by discriminate.
  split; [reflexivity|].
  destruct (reference_failures_do_not_abort sampleDir sampleJoin sampleOS
              "g/pom.xml" sampleDescriptor eq_refl) as (H1 & H2 & _).
  split; [apply (H1 bareOS); [reflexivity | intros text []]|].
  destruct (H2 sampleProject sampleLog eq_refl) as (Ha & Hb & _ & _ & Hd).
  split; [reflexivity|].
  split; [exact (proj1 (Ha "g/Missing.g4" eq_refl))|].
  split; [exact There|]. split.
  - apply Hb; [|exact There]. right; right; right; now left.
  - exact (Hd "g/Notes.g4" ErrNoFields eq_refl).
Defined.

(** Against C9 as stated: where a file stands in the place of a directory
    of the referenced path, the path names no file on disk, [os.Stat] fails
    on it with an error that is no not-exist error, and the path is kept in
    [Includes]. *)
Lemma path_naming_no_file_is_kept_in_Includes :
  ParsePom sampleDir sampleJoin fileInTheWayOS "g/pom.xml" =
    (Ok fileInTheWayProject, fileInTheWayLog)
  /\ namesNoFile fileInTheWayOS "g/Foo.GoTarget.g4/x.GoTarget.g4" = true
  /\ In "g/Foo.GoTarget.g4/x.GoTarget.g4" (Includes fileInTheWayProject)
  /\ ~ absentFilesAreDropped fileInTheWayOS fileInTheWayProject.
Proof.
  split; [reflexivity|]. split; [reflexivity|]. split; [now left|].
  intros H.
  destruct (H "g/Foo.GoTarget.g4/x.GoTarget.g4" eq_refl) as [Hn _].
  apply Hn. now left.
Qed.


(** * The further properties at the sample inputs *)

Lemma parser_and_lexer_names_witness :
  findGrammarOfType fooSplit "PARSER" = Some (grammarNamed "FooParser" "PARSER")
  /\ HasSuffix "FooParser" "Parser" = true
  /\ ParserName fooSplit = Returns "FooParser"
  /\ findGrammarOfType fooCombined "PARSER" = None
  /\ findGrammarOfType fooCombined "COMBINED" =
     Some (grammarNamed "Foo" "COMBINED")
  /\ ParserName fooCombined = Returns "FooParser".
Proof.
  split; [reflexivity|]. split; [reflexivity|].
  split.
  { destruct (parser_and_lexer_names fooSplit (grammarNamed "FooParser" "PARSER"))
      as (H & _).
    exact (proj1 (H eq_refl) eq_refl). }
  split; [reflexivity|]. split; [reflexivity|].
  destruct (parser_and_lexer_names fooCombined (grammarNamed "Foo" "COMBINED"))
    as (_ & H & _).
  exact (H eq_refl eq_refl).
Defined.

Lemma Project_GeneratedFilenames_concatenates_witness :
  Project_GeneratedFilenames sampleLower fooSplit =
    Returns ["fooparser_base_listener.go"; "fooparser_listener.go";
             "foo_parser.go"; "foo_lexer.go"]
  /\ ["fooparser_base_listener.go"; "fooparser_listener.go";
      "foo_parser.go"; "foo_lexer.go"] =
     flat_map (generatedNames sampleLower) (Grammars fooSplit)
  /\ returnsToCaller (Project_GeneratedFilenames sampleLower fooSplit).
Proof.
  split; [reflexivity|].
  destruct (Project_GeneratedFilenames_concatenates sampleLower fooSplit)
    as [H1 H2].
  split; [exact (proj1 (H2 _ eq_refl))|].
  apply H1. intros g [<-|[<-|[]]]; reflexivity.
Defined.

Lemma Project_GeneratedFilenames_panics_at_first_unknown_witness :
  Grammars treeProject =
    [grammarNamed "Foo" "COMBINED"] ++ grammarNamed "FooTree" "TREE"
      :: [grammarNamed "FooLexer" "LEXER"]
  /\ knownType "TREE" = false
  /\ Project_GeneratedFilenames sampleLower treeProject =
     Panics (UnknownGrammarType "TREE").
Proof.
  split; [reflexivity|]. split; [reflexivity|].
  apply (Project_GeneratedFilenames_panics_at_first_unknown sampleLower
           treeProject [grammarNamed "Foo" "COMBINED"]
           [grammarNamed "FooLexer" "LEXER"] (grammarNamed "FooTree" "TREE")).
  - reflexivity.
  - intros h [<-|[]]. reflexivity.
  - reflexivity.
Defined.

Lemma Project_GeneratedFilenames_of_appended_grammars_witness :
  Grammars fooSplit = Grammars fooParserOnly ++ Grammars fooLexerOnly
  /\ Project_GeneratedFilenames sampleLower fooSplit =
     Returns (["fooparser_base_listener.go"; "fooparser_listener.go";
               "foo_parser.go"] ++ ["foo_lexer.go"]).
Proof.
  split; [reflexivity|].
  exact (Project_GeneratedFilenames_of_appended_grammars sampleLower
           fooSplit fooParserOnly fooLexerOnly eq_refl).
Defined.

Lemma generated_filenames_are_lower_case_go_files_witness :
  Grammar_GeneratedFilenames sampleLower (grammarNamed "FooParser" "PARSER") =
    Returns ["fooparser_base_listener.go"; "fooparser_listener.go";
             "foo_parser.go"]
  /\ isASCII "FooParser" = true
  /\ HasSuffix "foo_parser.go" ".go" = true
  /\ isASCII "foo_parser.go" = true
  /\ noUpperCase "foo_parser.go" = true.
Proof.
  split; [reflexivity|]. split; [reflexivity|].
  destruct (generated_filenames_are_lower_case_go_files sampleLower
              (grammarNamed "FooParser" "PARSER") _ "foo_parser.go" eq_refl)
    as [H1 H2].
  { right; right; now left. }
  split; [exact H1|]. exact (H2 eq_refl).
Defined.

Lemma ParseG4_grammar_is_well_formed_witness :
  ParseG4 sampleOS "g/FooLexer.g4" =
    Ok {| Name := "FooLexer"; Filename := "g/FooLexer.g4"; Type_ := "LEXER" |}
  /\ knownType "LEXER" = true
  /\ "FooLexer" <> ""
  /\ ~ In ";"%char (list_ascii_of_string "FooLexer").
Proof.
  assert (E : ParseG4 sampleOS "g/FooLexer.g4" =
              Ok {| Name := "FooLexer"; Filename := "g/FooLexer.g4";
                    Type_ := "LEXER" |}) by reflexivity.
  split; [exact E|].
  destruct (ParseG4_grammar_is_well_formed sampleOS "g/FooLexer.g4" _ E)
    as (_ & H2 & H3 & H4 & _).
  split; [exact H2|]. split; [exact H3 | exact H4].
Defined.

Lemma ParsePom_fields_take_the_last_element_witness :
  Open examplesOS "grammars/calc/pom.xml" =
    LibOk {| lines := []; scanErr := None; tokens := examplesTokens |}
  /\ ParsePom sampleDir sampleJoin examplesOS "grammars/calc/pom.xml" =
     (Ok examplesProject, [])
  /\ LongName examplesProject = "Calc"
  /\ (FoundAntlr4MavenPlugin examplesProject = true <->
      In "antlr4-maven-plugin" ["antlr4-maven-plugin"; "calc"]).
Proof.
  split; [reflexivity|]. split; [reflexivity|].
  destruct (ParsePom_fields_take_the_last_element sampleDir sampleJoin
              examplesOS "grammars/calc/pom.xml" _ examplesProject []
              eq_refl eq_refl) as (_ & H2 & _ & _ & H5).
  split; [exact H2 | exact H5].
Defined.

Lemma ParsePom_examples_of_last_element_witness :
  Open examplesOS "grammars/calc/pom.xml" =
    LibOk {| lines := []; scanErr := None; tokens := examplesTokens |}
  /\ ParsePom sampleDir sampleJoin examplesOS "grammars/calc/pom.xml" =
     (Ok examplesProject, [])
  /\ Glob examplesOS "grammars/calc/examples/*" =
     LibOk (Examples examplesProject)
  /\ ExampleRoot examplesProject = "../"
  /\ String.length (ExampleRoot examplesProject) = 3.
Proof.
  split; [reflexivity|]. split; [reflexivity|].
  destruct (ParsePom_examples_of_last_element sampleDir sampleJoin
              examplesOS "grammars/calc/pom.xml" _ examplesProject []
              eq_refl eq_refl) as (_ & H).
  exact (H ltac:(discriminate)).
Defined.

Lemma ParsePom_log_accounts_for_includes_witness :
  Open sampleOS "g/pom.xml" = LibOk sampleDescriptor
  /\ ParsePom sampleDir sampleJoin sampleOS "g/pom.xml" =
     (Ok sampleProject, sampleLog)
  /\ Stat sampleOS "g/Missing.g4" = Some ErrNotExist
  /\ In (LogMissingGrammar "g/Missing.g4" "g/pom.xml") sampleLog
  /\ List.length (Includes sampleProject) =
     List.length (Grammars sampleProject)
     + List.length (filter isFailedToParse sampleLog)
  /\ ParsePom sampleDir sampleJoin fileInTheWayOS "g/pom.xml" =
     (Ok fileInTheWayProject, fileInTheWayLog)
  /\ Stat fileInTheWayOS "g/Foo.GoTarget.g4/x.GoTarget.g4" = Some ErrNotDir
  /\ In (LogFailedToParse "g/Foo.GoTarget.g4/x.GoTarget.g4"
           (FromLibrary (LibError "not a directory"))) fileInTheWayLog
  /\ ~ In (LogMissingGrammar "g/Foo.GoTarget.g4/x.GoTarget.g4" "g/pom.xml")
         fileInTheWayLog.
Proof.
  split; [reflexivity|]. split; [reflexivity|]. split; [reflexivity|].
  destruct (ParsePom_log_accounts_for_includes sampleDir sampleJoin sampleOS
              "g/pom.xml" sampleDescriptor sampleProject sampleLog
              eq_refl eq_refl) as (_ & _ & H3 & _ & H5 & _).
  split; [apply H3; [right; right; now left | reflexivity]|].
  split; [exact H5|]. split; [reflexivity|]. split; [reflexivity|].
  destruct (ParsePom_log_accounts_for_includes sampleDir sampleJoin
              fileInTheWayOS "g/pom.xml" _ fileInTheWayProject fileInTheWayLog
              eq_refl eq_refl) as (_ & _ & _ & H4 & _).
  apply (H4 "g/Foo.GoTarget.g4/x.GoTarget.g4" (LibError "not a directory")).
  - now left.
  - discriminate.
  - reflexivity.
Defined.

Lemma ParsePom_project_has_generated_filenames_witness :
  ParsePom sampleDir sampleJoin sampleOS "g/pom.xml" =
    (Ok sampleProject, sampleLog)
  /\ Project_GeneratedFilenames sampleLower sampleProject =
     Returns ["foo_base_listener.go"; "foo_listener.go";
              "foo_parser.go"; "foo_lexer.go"].
Proof.
  split; [reflexivity|].
  destruct (ParsePom_project_has_generated_filenames sampleLower sampleDir
              sampleJoin sampleOS "g/pom.xml" sampleProject sampleLog eq_refl)
    as (_ & H & _).
  exact H.
Defined.

Lemma reference_without_extension_is_used_as_it_is_witness :
  Index "g/Notes.txt" ".g4" = (-1)%Z
  /\ upgradeFile sampleOS "g/Notes.txt" = "g/Notes.txt".
Proof.
  split; [reflexivity|].
  exact (proj2 (reference_without_extension_is_used_as_it_is sampleOS
                  "g/Notes.txt" eq_refl)).
Defined.

Lemma repeated_reference_changes_nothing_witness :
  Stat sampleOS (upgradeFile sampleOS "g/Foo.g4") <> Some ErrNotExist
  /\ includeGrammar sampleOS "g/pom.xml"
       (fst (includeGrammar sampleOS "g/pom.xml" (newProject "g/pom.xml") []
               "g/Foo.g4"))
       (snd (includeGrammar sampleOS "g/pom.xml" (newProject "g/pom.xml") []
               "g/Foo.g4"))
       "g/Foo.g4" =
     includeGrammar sampleOS "g/pom.xml" (newProject "g/pom.xml") [] "g/Foo.g4"
  /\ Stat fileInTheWayOS (upgradeFile fileInTheWayOS "g/Foo.g4/x.g4") =
     Some ErrNotDir
  /\ In "g/Foo.GoTarget.g4/x.GoTarget.g4"
        (Includes (fst (includeGrammar fileInTheWayOS "g/pom.xml"
                          (newProject "g/pom.xml") [] "g/Foo.g4/x.g4")))
  /\ Stat sampleOS (upgradeFile sampleOS "g/Missing.g4") = Some ErrNotExist
  /\ includeGrammar sampleOS "g/pom.xml" (newProject "g/pom.xml") []
       "g/Missing.g4" =
     (newProject "g/pom.xml", [LogMissingGrammar "g/Missing.g4" "g/pom.xml"]).
Proof.
  assert (There : Stat sampleOS (upgradeFile sampleOS "g/Foo.g4")
                  <> Some ErrNotExist) by discriminate.
  assert (InTheWay : Stat fileInTheWayOS
                       (upgradeFile fileInTheWayOS "g/Foo.g4/x.g4")
                     <> Some ErrNotExist) by discriminate.
  split; [exact There|].
  split.
  { destruct (repeated_reference_changes_nothing sampleOS "g/pom.xml"
                (newProject "g/pom.xml") [] "g/Foo.g4") as (H & _).
    exact (proj1 (H There)). }
  split; [reflexivity|].
  split.
  { destruct (repeated_reference_changes_nothing fileInTheWayOS "g/pom.xml"
                (newProject "g/pom.xml") [] "g/Foo.g4/x.g4") as (H & _).
    exact (proj2 (H InTheWay)). }
  split; [reflexivity|].
  destruct (repeated_reference_changes_nothing sampleOS "g/pom.xml"
              (newProject "g/pom.xml") [] "g/Missing.g4") as (_ & H).
  exact (proj1 (H eq_refl)).
Defined.

Lemma ParsePom_of_descriptor_without_known_elements_witness :
  Open plainOS "plain/pom.xml" =
    LibOk {| lines := []; scanErr := None; tokens := plainTokens |}
  /\ elementsRead plainTokens = []
  /\ bodiesDecode plainTokens = true
  /\ ParsePom sampleDir sampleJoin plainOS "plain/pom.xml" =
     (Ok (newProject "plain/pom.xml"), []).
Proof.
  split; [reflexivity|]. split; [reflexivity|]. split; [reflexivity|].
  exact (proj1 (ParsePom_of_descriptor_without_known_elements sampleDir
                  sampleJoin plainOS "plain/pom.xml" _
                  eq_refl eq_refl eq_refl)).
Defined.
